(** * dnslib forwarding proxy and bidirectional table

    A shallow embedding of [dnslib/bimap.py] and [dnslib/proxy.py]:
    the [Bimap] code/text table, the two transport helpers [send_tcp]
    and [send_udp], the passthrough handler and the proxy resolver,
    together with the properties the design document states about
    them. *)

From Stdlib Require Import ZArith List String Ascii Bool Lia QArith.
From Stdlib Require Import Strings.Byte DecimalString.
Import ListNotations.

Local Open Scope string_scope.
Local Open Scope Z_scope.

(* ================================================================= *)
(** ** Python values shared by both modules *)

Definition bytes := list byte.

(** [len(x)] of a bytes object, as the integer Python computes. *)
Definition len (bs : bytes) : Z := Z.of_nat (List.length bs).

(** The exceptions the two modules raise or let through. *)
Inductive exn : Type :=
| socket_timeout                       (* socket.timeout *)
| OSError (errno : Z)                  (* any other socket fault *)
| struct_error                         (* struct.error *)
| DNSError (msg : string)              (* dnslib's decoding error *)
| KeyError (msg : string)
| UserError (cls : string) (msg : string).

(** The outcome of running a piece of Python: a value, a raised
    exception, or a call that blocks in the kernel and never comes
    back. *)
Inductive outcome (A : Type) : Type :=
| Ret (a : A)
| Raise (e : exn)
| Hang.
Arguments Ret {A} a.
Arguments Raise {A} e.
Arguments Hang {A}.

Definition bind {A B} (o : outcome A) (f : A -> outcome B) : outcome B :=
  match o with
  | Ret a => f a
  | Raise e => Raise e
  | Hang => Hang
  end.

(** [try: body except cls: handler] for an exception class given as a
    predicate on exceptions. *)
Definition try_except {A} (body : outcome A) (cls : exn -> bool)
    (handler : outcome A) : outcome A :=
  match body with
  | Raise e => if cls e then handler else Raise e
  | o => o
  end.

Definition is_socket_timeout (e : exn) : bool :=
  match e with socket_timeout => true | _ => false end.

(** [str(k)] for an integer. *)
Definition str (k : Z) : string := NilZero.string_of_int (Z.to_int k).

(* ================================================================= *)
(** ** Python dictionaries

    A [dict] keeps its items in insertion order; assigning to a key
    that is present replaces the value in place, assigning to a new
    key appends.  The dict comprehension of [Bimap.__init__] depends
    on that order when two items carry the same text, so the items are
    kept as a list. *)

Class EqKey (K : Type) := {
  keqb : K -> K -> bool;
  keqb_spec : forall x y, reflect (x = y) (keqb x y)
}.

#[export] Instance EqKey_Z : EqKey Z :=
  {| keqb := Z.eqb; keqb_spec := Z.eqb_spec |}.
#[export] Instance EqKey_string : EqKey string :=
  {| keqb := String.eqb; keqb_spec := String.eqb_spec |}.

Section Dict.
Context {K V : Type} `{EqKey K}.

Definition dict := list (K * V).

Definition keys (d : dict) : list K := map fst d.
Definition values (d : dict) : list V := map snd d.

(** [d[k]], [None] standing for Python's own [KeyError]. *)
Fixpoint dict_get (d : dict) (k : K) : option V :=
  match d with
  | [] => None
  | (k', v') :: d' => if keqb k' k then Some v' else dict_get d' k
  end.

(** [d[k] = v]. *)
Fixpoint dict_set (d : dict) (k : K) (v : V) : dict :=
  match d with
  | [] => [(k, v)]
  | (k', v') :: d' =>
      if keqb k' k then (k', v) :: d' else (k', v') :: dict_set d' k v
  end.

(** [d.copy()]: a new dict with the same items. *)
Definition dict_copy (d : dict) : dict := d.
End Dict.
Arguments dict K V : clear implicits.

(* ================================================================= *)
(** ** bimap.py *)

Module Bimap.

Record t := mk {
  name : string;
  error : string -> exn;
  forward : dict Z string;
  reverse : dict string Z
}.

(** One step of the comprehension [{v: k for k, v in forward.items()}]. *)
Definition flip (acc : dict string Z) (kv : Z * string) : dict string Z :=
  dict_set acc (snd kv) (fst kv).

(** [Bimap.__init__]: the reverse table is
    [{v: k for k, v in forward.items()}]. *)
Definition __init__ (name : string) (forward : dict Z string)
    (error : string -> exn) : t :=
  {| name := name;
     error := error;
     forward := dict_copy forward;
     reverse := fold_left flip forward [] |}.

(** [Bimap.get]: [self.forward.get(k, default or str(k))]; a missing
    or empty default is falsy. *)
Definition get (self : t) (k : Z) (default : option string) : string :=
  let fallback :=
    match default with
    | Some s => if String.eqb s "" then str k else s
    | None => str k
    end in
  match dict_get (forward self) k with
  | Some v => v
  | None => fallback
  end.

(** [Bimap.__getitem__]. *)
Definition __getitem__ (self : t) (k : Z) : outcome string :=
  match dict_get (forward self) k with
  | Some v => Ret v
  | None =>
      Raise (error self
               (name self ++ ": Invalid forward lookup: [" ++ str k ++ "]"))
  end.

(** [Bimap.__getattr__]. *)
Definition __getattr__ (self : t) (k : string) : outcome Z :=
  match dict_get (reverse self) k with
  | Some c => Ret c
  | None =>
      Raise (error self
               (name self ++ ": Invalid reverse lookup: [" ++ k ++ "]"))
  end.

(** The table of the module's doctest. *)
Definition TEST : t :=
  __init__ "TEST" [(1, "A"); (2, "B"); (3, "C")] (UserError "TestError").

End Bimap.

(* ================================================================= *)
(** ** struct.pack and struct.unpack with format "!H" *)

Definition byte_of_Z (z : Z) : byte :=
  match Byte.of_N (Z.to_N (z mod 256)) with
  | Some b => b
  | None => x00
  end.

Definition Z_of_byte (b : byte) : Z := Z.of_N (Byte.to_N b).

(** The unsigned 16-bit number whose big-endian bytes are [hi], [lo]. *)
Definition uint16 (hi lo : byte) : Z := 256 * Z_of_byte hi + Z_of_byte lo.
Arguments uint16 : simpl never.

(** [struct.pack("!H", n)]: two bytes, most significant first;
    [struct.error] when [n] does not fit an unsigned short. *)
Definition pack_H (n : Z) : outcome bytes :=
  if (0 <=? n) && (n <=? 65535)
  then Ret [byte_of_Z (n / 256); byte_of_Z (n mod 256)]
  else Raise struct_error.

(** [struct.unpack("!H", b)[0]]: [struct.error] unless [b] has exactly
    two bytes. *)
Definition unpack_H (b : bytes) : outcome Z :=
  match b with
  | [hi; lo] => Ret (uint16 hi lo)
  | _ => Raise struct_error
  end.

(* ================================================================= *)
(** ** The world outside the process

    What the upstream server does is a script of events, consumed by
    the receive calls in order.  An exhausted script on a stream
    socket is a connection the peer has closed: every further [recv]
    returns the empty bytes object at once. *)

Inductive event : Type :=
| Arrive (payload : bytes)   (* a stream segment or a datagram comes in *)
| Quiet                      (* nothing comes in while the socket waits *)
| Fault (errno : Z).         (* the receive fails with an OSError *)

Record World := mkWorld {
  defaulttimeout : option Q;  (* socket.getdefaulttimeout() *)
  refused : option Z;         (* errno that connect() fails with, if any *)
  incoming : list event;
  wire : list bytes;          (* buffers written to upstream, oldest first *)
  recvs : nat;                (* receive calls made so far *)
  log : list string           (* lines handed to the logger *)
}.

Definition set_incoming (evs : list event) (w : World) : World :=
  mkWorld (defaulttimeout w) (refused w) evs (wire w) (recvs w) (log w).

Definition put_wire (data : bytes) (w : World) : World :=
  mkWorld (defaulttimeout w) (refused w) (incoming w) (wire w ++ [data])%list
          (recvs w) (log w).

Definition count_recv (w : World) : World :=
  mkWorld (defaulttimeout w) (refused w) (incoming w) (wire w)
          (S (recvs w)) (log w).

Definition put_log (line : string) (w : World) : World :=
  mkWorld (defaulttimeout w) (refused w) (incoming w) (wire w) (recvs w)
          (log w ++ [line])%list.

(** The bytes a script delivers, in order. *)
Definition payload (ev : event) : bytes :=
  match ev with Arrive bs => bs | _ => [] end.

Definition stream (evs : list event) : bytes := flat_map payload evs.

Definition nonempty (c : bytes) : Prop := c <> [].

(** Code that acts on the world. *)
Definition M (A : Type) : Type := World -> outcome A * World.

Definition retM {A} (a : A) : M A := fun w => (Ret a, w).

Definition lift {A} (o : outcome A) : M A := fun w => (o, w).

Definition bindM {A B} (c : M A) (f : A -> M B) : M B :=
  fun w =>
    match c w with
    | (Ret a, w') => f a w'
    | (Raise e, w') => (Raise e, w')
    | (Hang, w') => (Hang, w')
    end.

(** Code with a loop runs on fuel: [None] says the loop was still
    going when the fuel ran out. *)
Definition F (A : Type) : Type := World -> option (outcome A * World).

Definition total {A} (c : M A) : F A := fun w => Some (c w).

Definition bindF {A B} (c : F A) (f : A -> F B) : F B :=
  fun w =>
    match c w with
    | Some (Ret a, w') => f a w'
    | Some (Raise e, w') => Some (Raise e, w')
    | Some (Hang, w') => Some (Hang, w')
    | None => None
    end.

Declare Scope py_scope.
Delimit Scope py_scope with py.
Notation "x <- c ;; k" := (bindM c (fun x => k))
  (at level 61, c at next level, right associativity) : py_scope.
Notation "x <~ c ;; k" := (bindF c (fun x => k))
  (at level 61, c at next level, right associativity) : py_scope.

(* ----------------------------------------------------------------- *)
(** *** Sockets *)

Inductive sock_type := SOCK_STREAM | SOCK_DGRAM.

Record socket := mkSocket {
  sock_kind : sock_type;
  sock_timeout : option Q     (* None: blocking without limit *)
}.

(** [socket.socket(AF_INET, type)]: a new socket takes the process-wide
    default timeout. *)
Definition socket_socket (ty : sock_type) : M socket :=
  fun w => (Ret (mkSocket ty (defaulttimeout w)), w).

Definition connect (sock : socket) (host : string) (port : Z) : M unit :=
  fun w =>
    match refused w with
    | Some errno => (Raise (OSError errno), w)
    | None => (Ret tt, w)
    end.

Definition sendall (sock : socket) (data : bytes) : M unit :=
  fun w => (Ret tt, put_wire data w).

Definition sendto (sock : socket) (data : bytes) (host : string) (port : Z)
  : M unit :=
  fun w => (Ret tt, put_wire data w).

(** A receive call on which nothing arrives: it raises after the
    socket's timeout, and never returns when there is none. *)
Definition idle {A} (sock : socket) : outcome A :=
  match sock_timeout sock with
  | Some _ => Raise socket_timeout
  | None => Hang
  end.

(** [sock.recv(bufsize)] on a stream: at most [bufsize] bytes of what
    has arrived, the rest staying queued for the next call. *)
Definition recv (sock : socket) (bufsize : Z) : M bytes :=
  fun w0 =>
    let w := count_recv w0 in
    match incoming w with
    | [] => (Ret [], w)
    | Arrive bs :: rest =>
        (Ret (firstn (Z.to_nat bufsize) bs),
         match skipn (Z.to_nat bufsize) bs with
         | [] => set_incoming rest w
         | more => set_incoming (Arrive more :: rest) w
         end)
    | Quiet :: rest => (idle sock, set_incoming rest w)
    | Fault errno :: rest => (Raise (OSError errno), set_incoming rest w)
    end.

(** [sock.recvfrom(bufsize)] on a datagram socket, without the sender's
    address (the caller drops it): one datagram, cut to [bufsize]. *)
Definition recvfrom (sock : socket) (bufsize : Z) : M bytes :=
  fun w0 =>
    let w := count_recv w0 in
    match incoming w with
    | [] => (idle sock, w)
    | Arrive bs :: rest =>
        (Ret (firstn (Z.to_nat bufsize) bs), set_incoming rest w)
    | Quiet :: rest => (idle sock, set_incoming rest w)
    | Fault errno :: rest => (Raise (OSError errno), set_incoming rest w)
    end.

(* ================================================================= *)
(** ** proxy.py: the transport helpers *)

Local Open Scope py_scope.

(** The loop of [send_tcp]:
    [while len(response) - 2 < length: response += sock.recv(8192)]. *)
Fixpoint send_tcp_loop (fuel : nat) (sock : socket) (length : Z)
    (response : bytes) : F bytes :=
  fun w =>
    if len response - 2 <? length then
      match fuel with
      | O => None
      | S fuel' =>
          match recv sock 8192 w with
          | (Ret more, w') =>
              send_tcp_loop fuel' sock length (response ++ more)%list w'
          | (Raise e, w') => Some (Raise e, w')
          | (Hang, w') => Some (Hang, w')
          end
      end
    else Some (Ret response, w).

Definition send_tcp (fuel : nat) (data : bytes) (host : string) (port : Z)
  : F bytes :=
  sock <~ total (socket_socket SOCK_STREAM) ;;
  _ <~ total (connect sock host port) ;;
  _ <~ total (sendall sock data) ;;
  response <~ total (recv sock 8192) ;;
  length <~ total (lift (unpack_H (firstn 2 response))) ;;
  send_tcp_loop fuel sock length response.

Definition send_udp (data : bytes) (host : string) (port : Z) : M bytes :=
  sock <- socket_socket SOCK_DGRAM ;;
  _ <- sendto sock data host port ;;
  recvfrom sock 8192.

(* ================================================================= *)
(** ** The codec and the upstream round trip of the resolver *)

(** Modelled from the spec: the wire-format codec, [dnslib.DNSRecord],
    whose source is not part of this development.  The design document
    gives the interface the proxy needs: parsing, the transaction id,
    a settable response code and the reply built from a request. *)
Record Codec := mkCodec {
  Message : Type;
  parse : bytes -> outcome Message;       (* DNSRecord.parse(b) *)
  id : Message -> Z;                      (* m.header.id *)
  rcode : Message -> Z;                   (* m.header.rcode *)
  reply : Message -> Message;             (* m.reply() *)
  set_rcode : Message -> Z -> Message;    (* m.header.rcode = c *)
  to_str : Message -> string              (* str(m) *)
}.

(** Modelled from the spec: what the design document says of the
    codec.  Parsing either yields a message or fails with the codec's
    own error; a reply built from a request keeps its transaction id;
    setting the response code changes nothing but the response
    code. *)
Record CodecLaws (C : Codec) : Prop := mkCodecLaws {
  parse_outcome : forall b,
    (exists m, parse C b = Ret m) \/
    (exists msg, parse C b = Raise (DNSError msg));
  reply_id : forall m, id C (reply C m) = id C m;
  set_rcode_id : forall m c, id C (set_rcode C m c) = id C m;
  set_rcode_rcode : forall m c,
    0 <= c < 16 -> rcode C (set_rcode C m c) = c
}.

(* ================================================================= *)
(** ** proxy.py: resolver and passthrough handler *)

Record ProxyResolver := mkProxyResolver {
  address : string;
  port : Z;
  timeout : Q
}.

(** [ProxyResolver.__init__(address, port, timeout=5)]. *)
Definition ProxyResolver_init (address : string) (port : Z)
    (timeout : option Q) : ProxyResolver :=
  mkProxyResolver address port
    (match timeout with Some t => t | None => 5%Q end).

Record CustomDNSServer := mkServer {
  resolver : ProxyResolver
}.

Record DNSHandler := mkHandler {
  protocol : string;
  server : CustomDNSServer
}.

Section Proxy.
Variable C : Codec.

(** Modelled from the spec: [DNSRecord.send(dest, port, tcp, timeout)],
    the upstream round trip of a structured request; its source is
    not part of this development.  It yields upstream's response
    bytes or raises. *)
Variable send : Message C -> string -> Z -> bool -> Q -> outcome bytes.

(** The response-code table [RCODE] of dnslib, a [Bimap]. *)
Variable RCODE : Bimap.t.

(** The [try] block of [ProxyResolver.resolve]. *)
Definition round_trip (self : ProxyResolver) (request : Message C)
    (handler : DNSHandler) : outcome bytes :=
  if String.eqb (protocol handler) "udp"
  then send request (address self) (port self) false (timeout self)
  else send request (address self) (port self) true (timeout self).

(** The [except socket.timeout] block of [ProxyResolver.resolve]. *)
Definition synthesized (request : Message C) : outcome (Message C) :=
  let reply := reply C request in
  bind (Bimap.__getattr__ RCODE "NXDOMAIN")
       (fun c => Ret (set_rcode C reply c)).

Definition resolve (self : ProxyResolver) (request : Message C)
    (handler : DNSHandler) : outcome (Message C) :=
  try_except
    (bind (round_trip self request handler) (parse C))
    is_socket_timeout
    (synthesized request).

Definition log_request (request : Message C) : M unit :=
  fun w => (Ret tt, put_log ("Request: " ++ to_str C request) w).

Definition log_reply (reply : Message C) : M unit :=
  fun w => (Ret tt, put_log ("Reply: " ++ to_str C reply) w).

(** [PassthroughDNSHandler.get_reply]. *)
Definition get_reply (fuel : nat) (self : DNSHandler) (data : bytes)
  : F bytes :=
  let host := address (resolver (server self)) in
  let port := port (resolver (server self)) in
  request <~ total (lift (parse C data)) ;;
  _ <~ total (log_request request) ;;
  response <~
    (if String.eqb (protocol self) "tcp" then
       prefix <~ total (lift (pack_H (len data))) ;;
       let data := (prefix ++ data)%list in
       response <~ send_tcp fuel data host port ;;
       total (retM (skipn 2 response))
     else total (send_udp data host port)) ;;
  reply <~ total (lift (parse C response)) ;;
  _ <~ total (log_reply reply) ;;
  total (retM response).
End Proxy.

(* ================================================================= *)
(** ** A concrete codec and concrete scenarios *)

(** Modelled from the spec: a message reduced to what the proxy
    touches, namely the 16-bit transaction id and the flags word of
    the 12-byte header (whose low four bits are the response code),
    the rest of the packet being kept as it came. *)
Record WireMessage := mkWire {
  wire_id : Z;
  wire_flags : Z;
  wire_rest : bytes
}.

(** Modelled from the spec: [parse], which fails when the bytes are too
    short to hold a header. *)
Definition wire_parse (b : bytes) : outcome WireMessage :=
  match b with
  | i1 :: i0 :: f1 :: f0 :: rest =>
      if len rest <? 8
      then Raise (DNSError "Error unpacking DNSHeader")
      else Ret (mkWire (uint16 i1 i0) (uint16 f1 f0) rest)
  | _ => Raise (DNSError "Error unpacking DNSHeader")
  end.

(** Modelled from the spec: the reply to a request keeps its id and
    the rest of the packet and sets the response bit. *)
Definition wire_reply (m : WireMessage) : WireMessage :=
  mkWire (wire_id m) (Z.lor (wire_flags m) 32768) (wire_rest m).

Definition wire_rcode (m : WireMessage) : Z := Z.land (wire_flags m) 15.

Definition wire_set_rcode (m : WireMessage) (c : Z) : WireMessage :=
  mkWire (wire_id m)
         (Z.lor (Z.land (wire_flags m) 65520) (Z.land c 15))
         (wire_rest m).

Definition wire_to_str (m : WireMessage) : string :=
  "id=" ++ str (wire_id m) ++ " rcode=" ++ str (wire_rcode m).

Definition Wire : Codec :=
  mkCodec WireMessage wire_parse wire_id wire_rcode wire_reply
          wire_set_rcode wire_to_str.

(** Modelled from the spec: the response codes of dnslib's [RCODE]
    table, of which the design document names [NXDOMAIN]. *)
Definition RCODE : Bimap.t :=
  Bimap.__init__ "RCODE"
    [(0, "NOERROR"); (1, "FORMERR"); (2, "SERVFAIL"); (3, "NXDOMAIN");
     (4, "NOTIMP"); (5, "REFUSED")]
    DNSError.

(* ================================================================= *)
(** ** proxy.py: the upstream option of the command line *)

(** [s.partition(sep)] for a separator of one character: the text
    before its first occurrence, the separator, the text after it; the
    whole text and two empty strings when it does not occur. *)
Fixpoint partition (s : string) (sep : ascii) : string * string * string :=
  match s with
  | EmptyString => ("", "", "")
  | String c s' =>
      if Ascii.eqb c sep then ("", String sep "", s')
      else let '(head, found, tail) := partition s' sep in
           (String c head, found, tail)
  end.

(** The two lines that split [--upstream]:
    [args.dns, _, args.dns_port = args.upstream.partition(':')] and
    [args.dns_port = int(args.dns_port or 53)].  Python's [int] on a
    string is a parameter. *)
Definition upstream_target (int : string -> outcome Z) (upstream : string)
  : outcome (string * Z) :=
  let '(dns, _, dns_port) := partition upstream ":" in
  bind (if String.eqb dns_port "" then Ret 53 else int dns_port)
       (fun dns_port => Ret (dns, dns_port)).

(** The characters of a text contain no colon. *)
Definition colon_free (s : string) : Prop :=
  ~ In ":"%char (list_ascii_of_string s).

(** [int] on the decimal texts of the scenarios. *)
Definition int_decimal (s : string) : outcome Z :=
  match NilZero.int_of_string s with
  | Some i => Ret (Z.of_int i)
  | None => Raise (UserError "ValueError" s)
  end.

(** The upstream server of the scenarios. *)
Definition upstream : ProxyResolver :=
  ProxyResolver_init "8.8.8.8" 53 None.

(** A process that has set no default timeout, talking to an upstream
    that behaves as the script says. *)
Definition world (script : list event) : World :=
  mkWorld None None script [] 0 [].

(** A query with transaction id 0x1234: a bare 12-byte header. *)
Definition query : bytes :=
  [x12; x34; x01; x00; x00; x01; x00; x00; x00; x00; x00; x00].

(** An answer to it, and an answer that carries another id. *)
Definition answer : bytes :=
  [x12; x34; x81; x80; x00; x01; x00; x01; x00; x00; x00; x00].


(** The answer as upstream frames it on a stream. *)
Definition framed_answer : bytes := ([x00; x0c] ++ answer)%list.

(** A 602-byte response, prefix and 600 bytes, written by upstream in
    three pieces of 2, 300 and 300 bytes. *)
Definition three_writes : list event :=
  [Arrive [x02; x58]; Arrive (repeat x00 300); Arrive (repeat x00 300)].

(** The same response cut short: upstream closes after 302 bytes. *)
Definition early_close : list event :=
  [Arrive [x02; x58]; Arrive (repeat x00 300)].

(** The same response with the two prefix bytes in separate pieces. *)
Definition split_prefix : list event :=
  [Arrive [x02]; Arrive (x58 :: repeat x00 600)].

Definition udp_handler : DNSHandler := mkHandler "udp" (mkServer upstream).
Definition tcp_handler : DNSHandler := mkHandler "tcp" (mkServer upstream).

(** The request the bytes of [query] decode to. *)
Definition request : WireMessage :=
  mkWire (uint16 x12 x34) (uint16 x01 x00)
         [x00; x01; x00; x00; x00; x00; x00; x00].

(** Round trips with a fixed outcome. *)
Definition send_canned (o : outcome bytes)
  : WireMessage -> string -> Z -> bool -> Q -> outcome bytes :=
  fun _ _ _ _ _ => o.

(** The world after one relayed query: [sent] went upstream, one
    receive call was made, request and reply were logged. *)
Definition relayed (sent : bytes) : World :=
  mkWorld None None [] [sent] 1
          ["Request: id=4660 rcode=0"; "Reply: id=4660 rcode=0"].

(** The message the bytes of [answer] decode to. *)
Definition answer_message : WireMessage :=
  mkWire (uint16 x12 x34) (uint16 x81 x80)
         [x00; x01; x00; x01; x00; x00; x00; x00].

(** A query of 65536 bytes, one more than a length prefix can
    express, and the message it decodes to. *)
Definition padding : bytes := repeat x00 (Z.to_nat 65524).

Definition big_query : bytes := (query ++ padding)%list.

Definition big_request : WireMessage :=
  mkWire (uint16 x12 x34) (uint16 x01 x00) (skipn 4 big_query).

(* ================================================================= *)
(** * Properties *)

(** ** Dictionaries *)

Section DictFacts.
Context {K V : Type} `{EqKey K}.
Implicit Types (d : dict K V) (k : K) (v : V).

Lemma keqb_refl k : keqb k k = true.
Proof. destruct (keqb_spec k k); congruence. Qed.

Lemma keqb_neq k k' : k <> k' -> keqb k k' = false.
Proof. intros Hne. destruct (keqb_spec k k'); congruence. Qed.

Lemma dict_get_set_same d k v : dict_get (dict_set d k v) k = Some v.
Proof.
  induction d as [|[k' v'] d IH]; simpl.
  - now rewrite keqb_refl.
  - destruct (keqb k' k) eqn:E; simpl; rewrite E; auto.
Qed.

Lemma dict_get_set_other d k k' v :
  k <> k' -> dict_get (dict_set d k v) k' = dict_get d k'.
Proof.
  intros Hne. induction d as [|[k0 v0] d IH]; simpl.
  - now rewrite keqb_neq.
  - destruct (keqb_spec k0 k) as [->|Hk0]; simpl.
    + now rewrite keqb_neq.
    + now rewrite IH.
Qed.

Lemma dict_get_In d k v : dict_get d k = Some v -> In (k, v) d.
Proof.
  induction d as [|[k' v'] d IH]; simpl; [discriminate|].
  destruct (keqb_spec k' k) as [->|_].
  - intros [= ->]. now left.
  - intros Hget. right. auto.
Qed.

Lemma In_dict_get d k v :
  NoDup (keys d) -> In (k, v) d -> dict_get d k = Some v.
Proof.
  induction d as [|[k' v'] d IH]; simpl; [tauto|].
  intros Hnd [Hhd|Htl]; inversion Hnd as [|? ? Hnotin Hnd']; subst.
  - injection Hhd as -> ->. now rewrite keqb_refl.
  - destruct (keqb_spec k' k) as [->|_]; auto.
    exfalso. apply Hnotin. change k with (fst (k, v)). now apply in_map.
Qed.
End DictFacts.

(** ** bimap.py *)

Module BimapFacts.
Import Bimap.

Example doctest_getitem : __getitem__ TEST 1 = Ret "A".
Proof. reflexivity. Qed.

Example doctest_getattr : __getattr__ TEST "A" = Ret 1.
Proof. reflexivity. Qed.

Example doctest_getattr_invalid :
  __getattr__ TEST "X"
  = Raise (UserError "TestError" "TEST: Invalid reverse lookup: [X]").
Proof. reflexivity. Qed.

Example doctest_getitem_invalid :
  __getitem__ TEST 99
  = Raise (UserError "TestError" "TEST: Invalid forward lookup: [99]").
Proof. reflexivity. Qed.

Example doctest_get : get TEST 99 None = "99".
Proof. reflexivity. Qed.

(** When two codes carry the same text the comprehension keeps the
    later one. *)
Example reverse_last_wins :
  __getattr__ (__init__ "T" [(1, "A"); (2, "A")] KeyError) "A" = Ret 2.
Proof. reflexivity. Qed.

Lemma reverse_untouched items acc v :
  ~ In v (values items) ->
  dict_get (fold_left flip items acc) v = dict_get acc v.
Proof.
  revert acc. induction items as [|[k0 v0] items IH]; intros acc Hnot.
  - reflexivity.
  - simpl in *. rewrite IH by tauto.
    unfold flip; simpl. apply dict_get_set_other. tauto.
Qed.

Lemma reverse_found items acc k v :
  NoDup (values items) -> In (k, v) items ->
  dict_get (fold_left flip items acc) v = Some k.
Proof.
  revert acc. induction items as [|[k0 v0] items IH]; intros acc Hnd Hin.
  - destruct Hin.
  - simpl in Hnd. inversion Hnd as [|? ? Hnotin Hnd']; subst.
    destruct Hin as [Hhd|Htl]; simpl.
    + injection Hhd as -> ->. rewrite reverse_untouched by assumption.
      unfold flip; simpl. apply dict_get_set_same.
    + now apply IH.
Qed.

Lemma getattr_init name fwd err k v :
  NoDup (values fwd) -> In (k, v) fwd ->
  __getattr__ (__init__ name fwd err) v = Ret k.
Proof.
  intros Hv Hin. unfold __getattr__, __init__; simpl.
  now rewrite (reverse_found fwd [] k v Hv Hin).
Qed.

Lemma getitem_init name fwd err k v :
  NoDup (keys fwd) -> In (k, v) fwd ->
  __getitem__ (__init__ name fwd err) k = Ret v.
Proof.
  intros Hk Hin. unfold __getitem__, __init__, dict_copy; simpl.
  now rewrite (In_dict_get fwd k v Hk Hin).
Qed.



End BimapFacts.

(** ** Bytes and the "!H" format *)

Local Open Scope list_scope.

Lemma len_app (a b : bytes) : len (a ++ b) = len a + len b.
Proof. unfold len. rewrite length_app. lia. Qed.

Lemma len_nonneg (a : bytes) : 0 <= len a.
Proof. unfold len. lia. Qed.

Lemma Z_of_byte_range (b : byte) : 0 <= Z_of_byte b < 256.
Proof.
  unfold Z_of_byte. pose proof (Byte.to_N_bounded b). lia.
Qed.

Lemma Z_of_byte_of_Z (z : Z) : 0 <= z < 256 -> Z_of_byte (byte_of_Z z) = z.
Proof.
  intros Hz. unfold Z_of_byte, byte_of_Z.
  rewrite Z.mod_small by assumption.
  destruct (Byte.of_N (Z.to_N z)) as [b|] eqn:E.
  - apply Byte.to_of_N in E. rewrite E. lia.
  - apply Byte.of_N_None_iff in E. lia.
Qed.

(** Framing round trip: the prefix written for a length is read back as
    that length. *)
Lemma unpack_pack_H (n : Z) :
  0 <= n <= 65535 -> bind (pack_H n) unpack_H = Ret n.
Proof.
  intros Hn. unfold pack_H.
  replace ((0 <=? n) && (n <=? 65535)) with true
    by (symmetry; apply andb_true_iff; split; apply Z.leb_le; lia).
  cbn [bind unpack_H]. unfold uint16. rewrite !Z_of_byte_of_Z.
  - f_equal. pose proof (Z.div_mod n 256 ltac:(lia)). lia.
  - apply Z.mod_pos_bound. lia.
  - split; [apply Z.div_pos; lia | apply Z.div_lt_upper_bound; lia].
Qed.

Lemma pack_H_Ret (n : Z) (p : bytes) :
  pack_H n = Ret p ->
  0 <= n <= 65535 /\ p = [byte_of_Z (n / 256); byte_of_Z (n mod 256)].
Proof.
  unfold pack_H. destruct ((0 <=? n) && (n <=? 65535)) eqn:E; [|discriminate].
  intros [= <-]. apply andb_true_iff in E as [H0 H1].
  apply Z.leb_le in H0, H1. auto.
Qed.

Lemma unpack_H_Ret (b : bytes) (n : Z) :
  unpack_H b = Ret n -> List.length b = 2%nat /\ 0 <= n <= 65535.
Proof.
  destruct b as [|hi [|lo [|? ?]]]; cbn [unpack_H]; try discriminate.
  intros [= <-]. pose proof (Z_of_byte_range hi).
  pose proof (Z_of_byte_range lo). unfold uint16. split; [reflexivity | lia].
Qed.

(** ** The socket calls *)

Lemma stream_app (a b : list event) : stream (a ++ b) = (stream a ++ stream b)%list.
Proof. apply flat_map_app. Qed.

Lemma stream_arrivals (chunks : list bytes) :
  stream (map Arrive chunks) = List.concat chunks.
Proof.
  induction chunks as [|c cs IH]; [reflexivity|].
  change (stream (map Arrive (c :: cs))) with (c ++ stream (map Arrive cs)).
  now rewrite IH.
Qed.

(** What a [recv] that returns leaves behind: the bytes it hands out are
    the head of what the peer delivered, one more call is counted and
    nothing else moves. *)
Lemma recv_Ret sock n w bs w' :
  recv sock n w = (Ret bs, w') ->
  stream (incoming w) = (bs ++ stream (incoming w'))%list /\
  wire w' = wire w /\ log w' = log w /\ refused w' = refused w /\
  recvs w' = S (recvs w).
Proof.
  unfold recv. simpl.
  destruct (incoming w) as [|[c| |errno] rest] eqn:E.
  - intros [= <- <-]. simpl. rewrite E. auto.
  - intros [= <- <-].
    destruct (skipn (Z.to_nat n) c) eqn:Es; simpl.
    + rewrite <- (firstn_skipn (Z.to_nat n) c) at 1. rewrite Es, app_nil_r. auto.
    + rewrite <- (firstn_skipn (Z.to_nat n) c) at 1.
      rewrite Es, <- app_assoc. auto.
  - unfold idle. destruct (sock_timeout sock); discriminate.
  - discriminate.
Qed.

(** Whatever a [recv] does, it writes nothing. *)
Lemma recv_silent sock n w o w' :
  recv sock n w = (o, w') ->
  wire w' = wire w /\ log w' = log w /\ refused w' = refused w.
Proof.
  unfold recv. simpl.
  destruct (incoming w) as [|[c| |errno] rest].
  - intros [= <- <-]. auto.
  - intros [= <- <-]. destruct (skipn (Z.to_nat n) c); auto.
  - intros [= <- <-]. auto.
  - intros [= <- <-]. auto.
Qed.

(** A [recv] on a stream whose next event is an arrival takes bytes
    from that arrival only. *)
Lemma recv_chunk sock n w c cs tail :
  incoming w = map Arrive (c :: cs) ++ tail ->
  exists got w' chunks',
    recv sock n w = (Ret got, w') /\
    incoming w' = map Arrive chunks' ++ tail /\
    got ++ List.concat chunks' = List.concat (c :: cs) /\
    (Forall nonempty (c :: cs) -> Forall nonempty chunks') /\
    (nonempty c -> 0 < n -> nonempty got) /\
    got = firstn (Z.to_nat n) c.
Proof.
  intros Hin. unfold recv. simpl. simpl in Hin. rewrite Hin.
  destruct (skipn (Z.to_nat n) c) as [|b more] eqn:Es.
  - exists (firstn (Z.to_nat n) c), (set_incoming (map Arrive cs ++ tail) (count_recv w)), cs.
    pose proof (firstn_skipn (Z.to_nat n) c) as Hfs.
    rewrite Es, app_nil_r in Hfs. rewrite Hfs.
    repeat split; auto. intros Hall. now inversion Hall.
  - exists (firstn (Z.to_nat n) c),
      (set_incoming (Arrive (b :: more) :: map Arrive cs ++ tail) (count_recv w)),
      ((b :: more) :: cs).
    repeat split; auto.
    + change (List.concat ((b :: more) :: cs))
        with ((b :: more) ++ List.concat cs).
      change (List.concat (c :: cs)) with (c ++ List.concat cs).
      rewrite app_assoc. f_equal. rewrite <- Es. apply firstn_skipn.
    + intros Hall. inversion Hall; subst. constructor; [discriminate | assumption].
    + intros Hc Hn Hgot. destruct c as [|x c']; [now apply Hc|].
      destruct (Z.to_nat n) eqn:En; [lia | discriminate].
Qed.

(** On a connection the peer has closed, [recv] returns the empty bytes
    object and the connection stays closed. *)
Lemma recv_closed sock n w :
  incoming w = [] ->
  exists w', recv sock n w = (Ret [], w') /\ incoming w' = [].
Proof.
  intros Hin. unfold recv. simpl. rewrite Hin.
  exists (count_recv w). auto.
Qed.

(** ** send_tcp *)

Lemma send_tcp_loop_silent fuel sock L response w o w' :
  send_tcp_loop fuel sock L response w = Some (o, w') ->
  wire w' = wire w /\ log w' = log w /\ refused w' = refused w.
Proof.
  revert response w. induction fuel as [|fuel IH]; intros response w; cbn [send_tcp_loop];
    destruct (len response - 2 <? L); try discriminate;
    try (intros [= <- <-]; now auto).
  destruct (recv sock 8192 w) as [[more| e |] w1] eqn:Er;
    apply recv_silent in Er as (Hw & Hl & Hr).
  - intros Hloop. apply IH in Hloop as (Hw' & Hl' & Hr'). repeat split; congruence.
  - intros [= <- <-]. auto.
  - intros [= <- <-]. auto.
Qed.

(** The loop only ever leaves with a response that holds the declared
    length and its two-byte prefix, made of what it had plus the bytes
    read meanwhile, in order. *)
Lemma send_tcp_loop_Ret fuel sock L response w r w' :
  send_tcp_loop fuel sock L response w = Some (Ret r, w') ->
  exists more,
    r = response ++ more /\
    stream (incoming w) = more ++ stream (incoming w') /\
    2 + L <= len r.
Proof.
  revert response w. induction fuel as [|fuel IH]; intros response w; cbn [send_tcp_loop];
    destruct (len response - 2 <? L) eqn:Ec; try discriminate;
    try (intros [= <- <-]; exists []; rewrite app_nil_r;
         apply Z.ltb_ge in Ec; repeat split; auto; lia).
  destruct (recv sock 8192 w) as [[got| e |] w1] eqn:Er; try discriminate.
  apply recv_Ret in Er as (Hs & _).
  intros Hloop. apply IH in Hloop as (more & -> & Hs' & Hlen).
  exists (got ++ more). rewrite Hs, Hs', !app_assoc. auto.
Qed.

(** Enough fuel and enough bytes on the way: the loop returns, having
    read from the arrivals only. *)
Lemma send_tcp_loop_terminates sock L tail fuel :
  forall response w chunks,
    incoming w = map Arrive chunks ++ tail ->
    Forall nonempty chunks ->
    2 + L <= len response + len (List.concat chunks) ->
    2 + L - len response <= Z.of_nat fuel ->
    exists r w' chunks',
      send_tcp_loop fuel sock L response w = Some (Ret r, w') /\
      incoming w' = map Arrive chunks' ++ tail /\
      r ++ List.concat chunks' = response ++ List.concat chunks.
Proof.
  induction fuel as [|fuel IH]; intros response w chunks Hin Hne Htot Hfuel;
    cbn [send_tcp_loop]; destruct (len response - 2 <? L) eqn:Ec;
    try (apply Z.ltb_lt in Ec; lia);
    try (exists response, w, chunks; now auto).
  apply Z.ltb_lt in Ec.
  destruct chunks as [|c cs].
  - change (len (List.concat [])) with 0 in Htot. lia.
  - destruct (recv_chunk sock 8192 w c cs tail Hin)
      as (got & w1 & chunks' & Hr & Hin' & Hcat & Hne' & Hgot & _).
    rewrite Hr.
    assert (Hg : 0 < len got).
    { inversion Hne; subst. specialize (Hgot ltac:(assumption) ltac:(lia)).
      destruct got; [now elim Hgot | unfold len; simpl; lia]. }
    assert (Hlen : len got + len (List.concat chunks') = len (List.concat (c :: cs)))
      by (rewrite <- Hcat, len_app; reflexivity).
    destruct (IH (response ++ got) w1 chunks' Hin' (Hne' Hne))
      as (r & w' & chunks'' & Hloop & Hin'' & Hcat'').
    + rewrite len_app. lia.
    + rewrite len_app. lia.
    + exists r, w', chunks''. repeat split; auto.
      rewrite Hcat'', <- Hcat, app_assoc. reflexivity.
Qed.

(** A peer that closes after delivering fewer bytes than it declared
    keeps the loop going for ever: whatever the fuel, the loop has not
    returned. *)
Lemma send_tcp_loop_spins sock L fuel :
  forall response w chunks,
    incoming w = map Arrive chunks ->
    len response + len (List.concat chunks) < 2 + L ->
    send_tcp_loop fuel sock L response w = None.
Proof.
  induction fuel as [|fuel IH]; intros response w chunks Hin Htot;
    cbn [send_tcp_loop];
    pose proof (len_nonneg (List.concat chunks));
    (replace (len response - 2 <? L) with true
       by (symmetry; apply Z.ltb_lt; lia)); [reflexivity|].
  destruct chunks as [|c cs].
  - destruct (recv_closed sock 8192 w Hin) as (w1 & Hr & Hin1). rewrite Hr.
    apply (IH _ _ []); [assumption|]. rewrite app_nil_r. exact Htot.
  - rewrite <- (app_nil_r (map Arrive (c :: cs))) in Hin.
    destruct (recv_chunk sock 8192 w c cs [] Hin)
      as (got & w1 & chunks' & Hr & Hin' & Hcat & _).
    rewrite Hr. rewrite app_nil_r in Hin'.
    apply (IH _ _ chunks'); [assumption|].
    rewrite len_app. rewrite <- Hcat, len_app in Htot. lia.
Qed.

Lemma send_tcp_unfold fuel data host port w :
  send_tcp fuel data host port w =
  let sock := mkSocket SOCK_STREAM (defaulttimeout w) in
  match refused w with
  | Some errno => Some (Raise (OSError errno), w)
  | None =>
      match recv sock 8192 (put_wire data w) with
      | (Ret response, w1) =>
          match unpack_H (firstn 2 response) with
          | Ret L => send_tcp_loop fuel sock L response w1
          | Raise e => Some (Raise e, w1)
          | Hang => Some (Hang, w1)
          end
      | (Raise e, w1) => Some (Raise e, w1)
      | (Hang, w1) => Some (Hang, w1)
      end
  end.
Proof.
  unfold send_tcp, bindF, total, socket_socket, connect, sendall, lift.
  destruct (refused w); [reflexivity|].
  destruct (recv _ 8192 (put_wire data w)) as [[response| e |] w1];
    reflexivity.
Qed.

(** A peer that declares [L] bytes and closes before delivering them:
    [send_tcp] is still in its loop whatever fuel it is given. *)
Lemma send_tcp_early_close data host port w first chunks L :
  refused w = None ->
  incoming w = map Arrive (first :: chunks) ->
  unpack_H (firstn 2 first) = Ret L ->
  len (List.concat (first :: chunks)) < 2 + L ->
  forall fuel, send_tcp fuel data host port w = None.
Proof.
  intros Hconn Hin Hunpack Htot fuel.
  rewrite send_tcp_unfold, Hconn. cbv zeta.
  assert (Hin' : incoming (put_wire data w) = map Arrive (first :: chunks) ++ [])
    by (rewrite app_nil_r; exact Hin).
  destruct (recv_chunk (mkSocket SOCK_STREAM (defaulttimeout w)) 8192
              (put_wire data w) first chunks [] Hin')
    as (got & w1 & chunks' & Hr & Hin1 & Hcat & _ & _ & Hgot).
  rewrite Hr.
  assert (H2 : firstn 2 got = firstn 2 first).
  { rewrite Hgot, firstn_firstn. f_equal; lia. }
  rewrite H2, Hunpack. rewrite app_nil_r in Hin1.
  apply (send_tcp_loop_spins _ _ _ _ _ chunks'); [assumption|].
  rewrite <- len_app, Hcat. exact Htot.
Qed.

(** When the first receive brings the two prefix bytes, which
    declare length [L], and upstream goes on delivering until at least
    [2 + L] bytes have come, in pieces of any size, [send_tcp] keeps
    receiving and appending until it holds at least [2 + L] bytes and
    returns them, prefix included: the response is the initial part
    of what upstream delivered, and all of it when upstream delivered
    exactly [2 + L] bytes. *)
Lemma send_tcp_reassembles (data : bytes) (host : string) (port : Z)
    (w : World) (first : bytes) (chunks : list bytes) (tail : list event)
    (L : Z) (fuel : nat) :
  refused w = None ->
  incoming w = map Arrive (first :: chunks) ++ tail ->
  Forall nonempty (first :: chunks) ->
  unpack_H (firstn 2 first) = Ret L ->
  2 + L <= len (List.concat (first :: chunks)) ->
  (Z.to_nat (2 + L) <= fuel)%nat ->
  exists response w' unread,
    send_tcp fuel data host port w = Some (Ret response, w') /\
    2 + L <= len response /\
    firstn 2 response = firstn 2 first /\
    response ++ List.concat unread = List.concat (first :: chunks) /\
    incoming w' = map Arrive unread ++ tail /\
    (len (List.concat (first :: chunks)) = 2 + L ->
     response = List.concat (first :: chunks)).
Proof.
  intros Hconn Hin Hne Hunpack Htot Hfuel.
  rewrite send_tcp_unfold, Hconn. cbv zeta.
  set (sock := mkSocket SOCK_STREAM (defaulttimeout w)).
  destruct (recv_chunk sock 8192 (put_wire data w) first chunks tail Hin)
    as (got & w1 & chunks' & Hr & Hin1 & Hcat & Hne' & _ & Hgot).
  rewrite Hr.
  assert (H2 : firstn 2 got = firstn 2 first).
  { rewrite Hgot, firstn_firstn. f_equal; lia. }
  rewrite H2, Hunpack.
  assert (Hlen : len got + len (List.concat chunks')
                 = len (List.concat (first :: chunks)))
    by (rewrite <- len_app, Hcat; reflexivity).
  pose proof (len_nonneg got) as Hgot0.
  destruct (send_tcp_loop_terminates sock L tail fuel got w1 chunks'
              Hin1 (Hne' Hne)) as (r & w' & unread & Hloop & Hin' & Hcat');
    [lia | lia |].
  exists r, w', unread. rewrite Hloop.
  destruct (send_tcp_loop_Ret _ _ _ _ _ _ _ Hloop) as (more & Hr' & _ & Hr2).
  assert (Hall : r ++ List.concat unread = List.concat (first :: chunks))
    by (rewrite Hcat', Hcat; reflexivity).
  repeat split; auto.
  - rewrite <- H2, Hr'. rewrite firstn_app.
    apply unpack_H_Ret in Hunpack as [Hl2 _]. rewrite <- H2 in Hl2.
    rewrite length_firstn in Hl2.
    replace (2 - List.length got)%nat with 0%nat by lia.
    now rewrite app_nil_r.
  - intros Hexact. rewrite <- Hall.
    assert (Hz : len (List.concat unread) = 0).
    { rewrite <- Hall, len_app in Hexact.
      pose proof (len_nonneg (List.concat unread)). lia. }
    destruct (List.concat unread); [now rewrite app_nil_r|].
    unfold len in Hz. simpl in Hz. lia.
Qed.

(** Scenario 3 of the design document: a 602-byte response written in
    pieces of 2, 300 and 300 bytes. *)
Lemma send_tcp_reassembles_three_writes :
  exists response w' unread,
    send_tcp 602 query "8.8.8.8" 53 (world three_writes)
    = Some (Ret response, w') /\
    2 + 600 <= len response /\
    firstn 2 response = firstn 2 [x02; x58] /\
    response ++ List.concat unread
    = List.concat [[x02; x58]; repeat x00 300; repeat x00 300] /\
    incoming w' = map Arrive unread ++ [] /\
    (len (List.concat [[x02; x58]; repeat x00 300; repeat x00 300]) = 2 + 600 ->
     response = List.concat [[x02; x58]; repeat x00 300; repeat x00 300]).
Proof.
  apply (send_tcp_reassembles query "8.8.8.8" 53 (world three_writes)
           [x02; x58] [repeat x00 300; repeat x00 300] [] 600 602).
  - reflexivity.
  - reflexivity.
  - repeat constructor; discriminate.
  - reflexivity.
  - vm_compute. discriminate.
  - lia.
Qed.

Example scenario_three_writes :
  option_map fst (send_tcp 2 query "8.8.8.8" 53 (world three_writes))
  = Some (Ret ([x02; x58] ++ repeat x00 600)).
Proof. vm_compute. reflexivity. Qed.

(** C4.  Upstream declares 600 bytes, delivers 300 and closes: every
    further receive returns nothing, the loop condition stays true, and
    [send_tcp] has not returned, with an error or otherwise, however
    much fuel it is given. *)
Theorem send_tcp_early_close_never_returns :
  forall fuel,
    send_tcp fuel query "8.8.8.8" 53 (world early_close) = None.
Proof.
  apply (send_tcp_early_close query "8.8.8.8" 53 (world early_close)
           [x02; x58] [repeat x00 300] 600).
  - reflexivity.
  - reflexivity.
  - reflexivity.
  - vm_compute. reflexivity.
Qed.

(** A peer that closes before sending anything makes the unpacking of
    the prefix fail, with an error that is not a socket error. *)
Example send_tcp_closed_at_once :
  option_map fst (send_tcp 0 query "8.8.8.8" 53 (world []))
  = Some (Raise struct_error).
Proof. reflexivity. Qed.

(** C9.  A 602-byte response whose first two bytes declare 600 and
    which reaches [send_tcp] in pieces of 1 and 601 bytes is not
    reassembled: the first receive brings one byte, unpacking the
    prefix from it fails, and [send_tcp] raises [struct.error] without
    reading further, whatever fuel it has. *)
Theorem send_tcp_split_prefix :
  forall fuel,
    option_map fst (send_tcp fuel query "8.8.8.8" 53 (world split_prefix))
    = Some (Raise struct_error).
Proof. intros fuel. rewrite send_tcp_unfold. reflexivity. Qed.

(** ** The resolver *)

Lemma Wire_laws : CodecLaws Wire.
Proof.
  constructor.
  - intros b. cbn [parse Wire]. unfold wire_parse.
    destruct b as [|i1 [|i0 [|f1 [|f0 rest]]]]; eauto.
    destruct (len rest <? 8); eauto.
  - reflexivity.
  - reflexivity.
  - intros m c Hc. cbn [rcode set_rcode Wire].
    unfold wire_rcode, wire_set_rcode. cbn [wire_flags].
    rewrite Z.land_lor_distr_l, <- !Z.land_assoc.
    change (Z.land 65520 15) with 0. change (Z.land 15 15) with (Z.ones 4).
    rewrite Z.land_0_r, Z.lor_0_l, Z.land_ones by lia.
    apply Z.mod_small. change (2 ^ 4) with 16. lia.
Qed.

Section ResolverFacts.
Variable C : Codec.
Variable send : Message C -> string -> Z -> bool -> Q -> outcome bytes.
Variable RCODE : Bimap.t.
Hypothesis laws : CodecLaws C.

Lemma parse_not_timeout b : parse C b <> Raise socket_timeout.
Proof.
  destruct (parse_outcome C laws b) as [[m Hm]|[msg Hm]];
    rewrite Hm; discriminate.
Qed.

Lemma parse_not_hang b : parse C b <> Hang.
Proof.
  destruct (parse_outcome C laws b) as [[m Hm]|[msg Hm]];
    rewrite Hm; discriminate.
Qed.

Lemma try_parse b handler :
  try_except (parse C b) is_socket_timeout handler = parse C b.
Proof.
  destruct (parse_outcome C laws b) as [[m Hm]|[msg Hm]];
    rewrite Hm; reflexivity.
Qed.

(** C8.  When the upstream round trip returns bytes, what [resolve]
    returns is the parse of those bytes and nothing else: the
    message they decode to, untouched, or the decoding error. *)
Theorem resolve_returns_parse (self : ProxyResolver)
    (request : Message C) (handler : DNSHandler) (b : bytes) :
  round_trip C send self request handler = Ret b ->
  resolve C send RCODE self request handler = parse C b.
Proof.
  intros Hup. unfold resolve. rewrite Hup. cbn [bind]. apply try_parse.
Qed.

(** C2.  [resolve] answers with the reply synthesized from the
    request, response code NXDOMAIN, exactly when the upstream round
    trip raises a timeout; any other exception of the round trip
    leaves [resolve] as it is, and when the round trip returns bytes
    the result is their parse, not a synthesized reply. *)
Theorem resolve_timeout_only (self : ProxyResolver)
    (request : Message C) (handler : DNSHandler) (nx : Z) :
  Bimap.__getattr__ RCODE "NXDOMAIN" = Ret nx ->
  let up := round_trip C send self request handler in
  let result := resolve C send RCODE self request handler in
  (up = Raise socket_timeout ->
   result = Ret (set_rcode C (reply C request) nx)) /\
  (forall e, up = Raise e -> e <> socket_timeout -> result = Raise e) /\
  (forall b, up = Ret b -> result = parse C b) /\
  (up = Hang -> result = Hang).
Proof.
  intros Hnx up result. unfold result, up, resolve.
  repeat split.
  - intros ->. cbn [bind try_except is_socket_timeout].
    unfold synthesized. now rewrite Hnx.
  - intros e -> Hne. cbn [bind try_except].
    destruct e; try reflexivity. now elim Hne.
  - intros b ->. cbn [bind]. apply try_parse.
  - intros ->. reflexivity.
Qed.

(** The synthesized reply has the request's id and the response code
    looked up under NXDOMAIN. *)
Lemma synthesized_reply (request : Message C) (nx : Z) :
  Bimap.__getattr__ RCODE "NXDOMAIN" = Ret nx -> 0 <= nx < 16 ->
  exists r, synthesized C RCODE request = Ret r /\
            id C r = id C request /\ rcode C r = nx.
Proof.
  intros Hnx Hrange. unfold synthesized. rewrite Hnx. cbn [bind].
  eexists. split; [reflexivity|]. split.
  - now rewrite (set_rcode_id C laws), (reply_id C laws).
  - now apply (set_rcode_rcode C laws).
Qed.

End ResolverFacts.

Lemma resolve_returns_parse_witness :
  round_trip Wire (send_canned (Ret answer)) upstream request udp_handler
  = Ret answer /\
  resolve Wire (send_canned (Ret answer)) RCODE upstream request udp_handler
  = parse Wire answer.
Proof.
  split; [reflexivity|].
  apply (resolve_returns_parse Wire (send_canned (Ret answer)) RCODE
           Wire_laws upstream request udp_handler answer).
  reflexivity.
Defined.

Lemma resolve_timeout_only_witness :
  let up := round_trip Wire (send_canned (Raise socket_timeout))
                       upstream request tcp_handler in
  let result := resolve Wire (send_canned (Raise socket_timeout)) RCODE
                        upstream request tcp_handler in
  (up = Raise socket_timeout ->
   result = Ret (wire_set_rcode (wire_reply request) 3)) /\
  (forall e, up = Raise e -> e <> socket_timeout -> result = Raise e) /\
  (forall b, up = Ret b -> result = wire_parse b) /\
  (up = Hang -> result = Hang).
Proof.
  apply (resolve_timeout_only Wire (send_canned (Raise socket_timeout)) RCODE
           Wire_laws upstream request tcp_handler 3).
  reflexivity.
Defined.

(** Scenario 2 of the design document, and a refused connection next
    to it. *)
Example resolve_on_timeout :
  resolve Wire (send_canned (Raise socket_timeout)) RCODE
          upstream request udp_handler
  = Ret (mkWire 4660 33027 [x00; x01; x00; x00; x00; x00; x00; x00]).
Proof. vm_compute. reflexivity. Qed.

Example resolve_on_refusal :
  resolve Wire (send_canned (Raise (OSError 111))) RCODE
          upstream request udp_handler
  = Raise (OSError 111).
Proof. reflexivity. Qed.



(** ** send_udp *)

Lemma send_udp_unfold data host port w :
  send_udp data host port w
  = recvfrom (mkSocket SOCK_DGRAM (defaulttimeout w)) 8192 (put_wire data w).
Proof. reflexivity. Qed.

(** [send_udp] writes the datagram it is given and makes one receive
    call, whatever comes of it. *)
Lemma send_udp_effects data host port w o w' :
  send_udp data host port w = (o, w') ->
  wire w' = wire w ++ [data] /\ recvs w' = S (recvs w) /\ log w' = log w.
Proof.
  rewrite send_udp_unfold. unfold recvfrom. simpl.
  destruct (incoming w) as [|[c| |errno] rest]; intros [= <- <-]; auto.
Qed.


(** The socket of [send_udp] has the timeout the process gives every
    new socket and no other: in a process that sets none, a receive on
    which nothing arrives does not come back. *)
Lemma send_udp_silent_upstream data host port w :
  defaulttimeout w = None ->
  incoming w = [] \/ (exists rest, incoming w = Quiet :: rest) ->
  fst (send_udp data host port w) = Hang.
Proof.
  intros Hdef Hin. rewrite send_udp_unfold. unfold recvfrom, idle. simpl.
  destruct Hin as [->|[rest ->]]; rewrite Hdef; reflexivity.
Qed.

Lemma send_udp_raises_no_timeout data host port w :
  defaulttimeout w = None ->
  fst (send_udp data host port w) <> Raise socket_timeout.
Proof.
  intros Hdef. rewrite send_udp_unfold. unfold recvfrom, idle. simpl.
  rewrite Hdef. destruct (incoming w) as [|[c| |errno] rest]; discriminate.
Qed.

(** C7.  Upstream never answers a query sent by [send_udp] in a proxy
    configured with the default timeout of five seconds: no timeout is
    raised; the one receive call the helper makes does not return. *)
Theorem send_udp_blocks_without_timeout :
  timeout upstream == 5 /\
  send_udp query (address upstream) (port upstream) (world [Quiet])
  = (Hang, mkWorld None None [] [query] 1 []).
Proof. split; reflexivity. Qed.

(** ** What send_tcp writes and returns *)

(** [send_tcp] hands upstream the buffer it was given, as it was given,
    once the connection is made, and nothing when it is refused. *)
Lemma send_tcp_wire fuel data host port w o w' :
  send_tcp fuel data host port w = Some (o, w') ->
  wire w' = wire w ++ match refused w with Some _ => [] | None => [data] end /\
  log w' = log w.
Proof.
  rewrite send_tcp_unfold. cbv zeta.
  destruct (refused w) as [errno|].
  - intros [= <- <-]. now rewrite app_nil_r.
  - destruct (recv _ 8192 (put_wire data w)) as [[response| e |] w1] eqn:Er;
      apply recv_silent in Er as (Hw & Hl & _); simpl in Hw, Hl.
    + destruct (unpack_H (firstn 2 response)) as [L| e |].
      * intros Hloop. apply send_tcp_loop_silent in Hloop as (Hw' & Hl' & _).
        split; congruence.
      * intros [= <- <-]. auto.
      * intros [= <- <-]. auto.
    + intros [= <- <-]. auto.
    + intros [= <- <-]. auto.
Qed.

Lemma send_tcp_Ret fuel data host port w r w' :
  send_tcp fuel data host port w = Some (Ret r, w') ->
  refused w = None /\
  stream (incoming w) = r ++ stream (incoming w') /\
  exists L, unpack_H (firstn 2 r) = Ret L /\ 2 + L <= len r.
Proof.
  rewrite send_tcp_unfold. cbv zeta.
  destruct (refused w) as [errno|]; [discriminate|].
  destruct (recv _ 8192 (put_wire data w)) as [[got| e |] w1] eqn:Er;
    try discriminate.
  apply recv_Ret in Er as (Hs & _). simpl in Hs.
  destruct (unpack_H (firstn 2 got)) as [L| e |] eqn:Hu; try discriminate.
  intros Hloop.
  apply send_tcp_loop_Ret in Hloop as (more & -> & Hs' & Hlen).
  split; [reflexivity|]. split.
  - rewrite Hs, Hs', app_assoc. reflexivity.
  - exists L. split; [|assumption].
    rewrite firstn_app. pose proof (unpack_H_Ret _ _ Hu) as [Hl2 _].
    rewrite length_firstn in Hl2.
    replace (2 - List.length got)%nat with 0%nat by lia.
    now rewrite app_nil_r.
Qed.

(** C6 fails as stated: given the single byte 0x41, [send_tcp] writes
    that byte and no length prefix in front of it, whereas the prefix
    of a one-byte message is 0x00 0x01. *)
Lemma send_tcp_adds_no_prefix :
  option_map (fun r => wire (snd r))
             (send_tcp 0 [x41] "8.8.8.8" 53 (world [Arrive [x00; x00]]))
  = Some [[x41]] /\
  pack_H (len [x41]) = Ret [x00; x01].
Proof. split; reflexivity. Qed.

(** ** The passthrough handler *)

Section HandlerFacts.
Variable C : Codec.

(** What [get_reply] has done when it returns bytes. *)
Lemma get_reply_Ret fuel self data w out w' :
  get_reply C fuel self data w = Some (Ret out, w') ->
  exists req rep w1,
    parse C data = Ret req /\
    parse C out = Ret rep /\
    w' = put_log ("Reply: " ++ to_str C rep)%string w1 /\
    if String.eqb (protocol self) "tcp" then
      exists prefix response,
        pack_H (len data) = Ret prefix /\
        send_tcp fuel (prefix ++ data)
                 (address (resolver (server self)))
                 (port (resolver (server self)))
                 (put_log ("Request: " ++ to_str C req)%string w)
        = Some (Ret response, w1) /\
        out = skipn 2 response
    else
      send_udp data (address (resolver (server self)))
               (port (resolver (server self)))
               (put_log ("Request: " ++ to_str C req)%string w)
      = (Ret out, w1).
Proof.
  unfold get_reply, bindF, total, lift, log_request, log_reply, retM.
  intros H.
  destruct (parse C data) as [req| |] eqn:Hreq; try discriminate.
  destruct (String.eqb (protocol self) "tcp") eqn:Hproto.
  - destruct (pack_H (len data)) as [prefix| |] eqn:Hpack; try discriminate.
    destruct (send_tcp fuel _ _ _ _) as [[[response| |] w1]|] eqn:Htcp;
      try discriminate.
    destruct (parse C (skipn 2 response)) as [rep| |] eqn:Hrep;
      try discriminate.
    injection H as <- <-.
    exists req, rep, w1. repeat split; auto. exists prefix, response. auto.
  - destruct (send_udp data _ _ _) as [[response| |] w1] eqn:Hudp;
      try discriminate.
    destruct (parse C response) as [rep| |] eqn:Hrep; try discriminate.
    injection H as <- <-.
    exists req, rep, w1. repeat split; auto.
Qed.

(** Over TCP, a handler that returns has sent the client's bytes
    behind their length prefix and returns upstream's bytes less the
    first two. *)
Lemma get_reply_tcp fuel self data w out w' :
  String.eqb (protocol self) "tcp" = true ->
  get_reply C fuel self data w = Some (Ret out, w') ->
  exists prefix response,
    pack_H (len data) = Ret prefix /\
    unpack_H prefix = Ret (len data) /\
    wire w' = wire w ++ [prefix ++ data] /\
    stream (incoming w) = response ++ stream (incoming w') /\
    out = skipn 2 response.
Proof.
  intros Hproto H.
  apply get_reply_Ret in H as (req & rep & w1 & _ & _ & -> & H).
  rewrite Hproto in H. destruct H as (prefix & response & Hpack & Htcp & ->).
  exists prefix, response.
  pose proof (send_tcp_wire _ _ _ _ _ _ _ Htcp) as [Hw _].
  apply send_tcp_Ret in Htcp as (Hconn & Hs & _).
  simpl in Hconn, Hw, Hs. rewrite Hconn in Hw.
  repeat split; auto.
  pose proof (pack_H_Ret _ _ Hpack) as [Hrange _].
  pose proof (unpack_pack_H _ Hrange) as Hrt.
  now rewrite Hpack in Hrt.
Qed.


(** C5, as the code has it.  A parse failure is not confined to
    logging.  When the client's bytes do not parse, the handler
    raises at once: nothing is logged, nothing goes upstream, nothing
    is returned.  When what upstream sent back does not parse, the
    handler raises after the round trip and the response is not
    returned.  The handler returns bytes only when both the client's
    bytes and the returned bytes parse, and then both are logged. *)
Theorem passthrough_parse_failure_aborts (fuel : nat) (self : DNSHandler)
    (data : bytes) (w : World) :
  (forall e, parse C data = Raise e ->
             get_reply C fuel self data w = Some (Raise e, w)) /\
  (forall req response w1 e,
      String.eqb (protocol self) "tcp" = false ->
      parse C data = Ret req ->
      send_udp data (address (resolver (server self)))
               (port (resolver (server self)))
               (put_log ("Request: " ++ to_str C req)%string w)
      = (Ret response, w1) ->
      parse C response = Raise e ->
      get_reply C fuel self data w = Some (Raise e, w1)) /\
  (forall req prefix response w1 e,
      String.eqb (protocol self) "tcp" = true ->
      parse C data = Ret req ->
      pack_H (len data) = Ret prefix ->
      send_tcp fuel (prefix ++ data) (address (resolver (server self)))
               (port (resolver (server self)))
               (put_log ("Request: " ++ to_str C req)%string w)
      = Some (Ret response, w1) ->
      parse C (skipn 2 response) = Raise e ->
      get_reply C fuel self data w = Some (Raise e, w1)) /\
  (forall out w',
      get_reply C fuel self data w = Some (Ret out, w') ->
      exists req rep,
        parse C data = Ret req /\ parse C out = Ret rep /\
        log w' = log w ++ [("Request: " ++ to_str C req)%string;
                           ("Reply: " ++ to_str C rep)%string]).
Proof.
  repeat split.
  - intros e He. unfold get_reply, bindF, total, lift. now rewrite He.
  - intros req response w1 e Hproto Hreq Hudp Hrep.
    unfold get_reply, bindF, total, lift, log_request.
    now rewrite Hreq, Hproto, Hudp, Hrep.
  - intros req prefix response w1 e Hproto Hreq Hpack Htcp Hrep.
    unfold get_reply, bindF, total, lift, log_request, retM.
    now rewrite Hreq, Hproto, Hpack, Htcp, Hrep.
  - intros out w' H.
    apply get_reply_Ret in H as (req & rep & w1 & Hreq & Hrep & -> & H).
    exists req, rep. repeat split; auto.
    assert (Hl : log w1 = log w ++ [("Request: " ++ to_str C req)%string]).
    { destruct (String.eqb (protocol self) "tcp").
      - destruct H as (prefix & response & _ & Htcp & _).
        now apply send_tcp_wire in Htcp as [_ Hl].
      - now apply send_udp_effects in H as (_ & _ & Hl). }
    simpl. rewrite Hl, <- app_assoc. reflexivity.
Qed.

(** C6, as the code has it.  [send_tcp] adds nothing to what it is
    asked to send: on a connection that is made, it writes its
    argument as it is.  The two-byte big-endian length prefix is put
    in front of the client's bytes by the caller, the passthrough
    handler, which passes prefix and bytes together to [send_tcp]. *)
Theorem length_prefix_comes_from_the_caller (fuel : nat) :
  (forall data host port w o w',
      refused w = None ->
      send_tcp fuel data host port w = Some (o, w') ->
      wire w' = wire w ++ [data]) /\
  (forall self data w out w',
      String.eqb (protocol self) "tcp" = true ->
      get_reply C fuel self data w = Some (Ret out, w') ->
      exists prefix,
        pack_H (len data) = Ret prefix /\
        unpack_H prefix = Ret (len data) /\
        wire w' = wire w ++ [prefix ++ data]).
Proof.
  split.
  - intros data host port w o w' Hconn H.
    apply send_tcp_wire in H as [Hw _]. now rewrite Hconn in Hw.
  - intros self data w out w' Hproto H.
    destruct (get_reply_tcp _ _ _ _ _ _ Hproto H)
      as (prefix & response & Hpack & Hunpack & Hw & _).
    exists prefix. auto.
Qed.
End HandlerFacts.


Example passthrough_udp :
  get_reply Wire 0 udp_handler query (world [Arrive answer])
  = Some (Ret answer, relayed query).
Proof. reflexivity. Qed.

(** C5 fails as stated: the client sends a single byte, which does not
    parse; the handler raises the decoding error, and the world is
    left as it was, with nothing written to upstream and upstream's
    answer unread. *)
Lemma passthrough_malformed_request_not_forwarded :
  get_reply Wire 0 udp_handler [x00] (world [Arrive answer])
  = Some (Raise (DNSError "Error unpacking DNSHeader"),
          world [Arrive answer]) /\
  wire (world [Arrive answer]) = [].
Proof. split; reflexivity. Qed.

Lemma passthrough_parse_failure_aborts_witness :
  String.eqb (protocol udp_handler) "tcp" = false /\
  parse Wire query = Ret request /\
  send_udp query "8.8.8.8" 53
           (put_log "Request: id=4660 rcode=0" (world [Arrive [x00]]))
  = (Ret [x00],
     mkWorld None None [] [query] 1 ["Request: id=4660 rcode=0"]) /\
  parse Wire [x00] = Raise (DNSError "Error unpacking DNSHeader") /\
  get_reply Wire 0 udp_handler query (world [Arrive [x00]])
  = Some (Raise (DNSError "Error unpacking DNSHeader"),
          mkWorld None None [] [query] 1 ["Request: id=4660 rcode=0"]).
Proof.
  do 4 (split; [reflexivity|]).
  apply (proj1 (proj2 (passthrough_parse_failure_aborts Wire 0 udp_handler
                         query (world [Arrive [x00]])))
           request [x00]);
    reflexivity.
Defined.

Lemma length_prefix_comes_from_the_caller_witness :
  refused (world [Arrive [x00; x00]]) = None /\
  send_tcp 0 [x41] "8.8.8.8" 53 (world [Arrive [x00; x00]])
  = Some (Ret [x00; x00], mkWorld None None [] [[x41]] 1 []) /\
  wire (mkWorld None None [] [[x41]] 1 [])
  = wire (world [Arrive [x00; x00]]) ++ [[x41]].
Proof.
  do 2 (split; [reflexivity|]).
  apply (proj1 (length_prefix_comes_from_the_caller Wire 0)
           [x41] "8.8.8.8" 53 (world [Arrive [x00; x00]])
           (Ret [x00; x00]));
    reflexivity.
Defined.

(* ================================================================= *)
(** * Further properties of bimap.py *)

Section DictMore.
Context {K V : Type} `{EqKey K}.
Implicit Types (d : dict K V) (k : K) (v : V).

Lemma dict_get_None d k : dict_get d k = None <-> ~ In k (keys d).
Proof.
  induction d as [|[k' v'] d IH]; simpl.
  - tauto.
  - destruct (keqb_spec k' k) as [->|Hne].
    + split; [discriminate | intros Hnot; elim Hnot; now left].
    + rewrite IH. tauto.
Qed.

Lemma dict_get_Some_key d k v : dict_get d k = Some v -> In k (keys d).
Proof.
  intros Hget. apply dict_get_In in Hget.
  change k with (fst (k, v)). now apply in_map.
Qed.

Lemma keys_dict_set d k v :
  keys (dict_set d k v)
  = match dict_get d k with Some _ => keys d | None => keys d ++ [k] end.
Proof.
  unfold keys. induction d as [|[k' v'] d IH]; simpl; [reflexivity|].
  destruct (keqb_spec k' k) as [->|Hne]; simpl; [reflexivity|].
  rewrite IH. now destruct (dict_get d k).
Qed.

Lemma In_keys_dict_set d k v k0 :
  In k0 (keys (dict_set d k v)) <-> In k0 (keys d) \/ k0 = k.
Proof.
  rewrite keys_dict_set. destruct (dict_get d k) eqn:E.
  - apply dict_get_Some_key in E. split; [tauto|]. intros [?| ->]; tauto.
  - rewrite in_app_iff. simpl. intuition.
Qed.

Lemma NoDup_keys_dict_set d k v :
  NoDup (keys d) -> NoDup (keys (dict_set d k v)).
Proof.
  intros Hnd. rewrite keys_dict_set. destruct (dict_get d k) eqn:E.
  - assumption.
  - apply dict_get_None in E. apply NoDup_app; [assumption | repeat constructor; simpl; tauto |].
    intros x Hx [<-|[]]. tauto.
Qed.
End DictMore.

Module BimapMore.
Import Bimap.

Lemma dict_set_fresh {K V} `{EqKey K} (d : dict K V) k v :
  ~ In k (keys d) -> dict_set d k v = d ++ [(k, v)].
Proof.
  induction d as [|[k' v'] d IH]; simpl; [reflexivity|].
  intros Hnot. destruct (keqb_spec k' k) as [->|Hne]; [tauto|].
  rewrite IH by tauto. reflexivity.
Qed.

Lemma In_keys_reverse items acc v :
  In v (keys (fold_left flip items acc))
  <-> In v (keys acc) \/ In v (values items).
Proof.
  revert acc. induction items as [|[k0 v0] items IH]; intros acc; simpl.
  - tauto.
  - rewrite IH. unfold flip; simpl. rewrite In_keys_dict_set.
    intuition congruence.
Qed.

Lemma NoDup_keys_reverse items acc :
  NoDup (keys acc) -> NoDup (keys (fold_left flip items acc)).
Proof.
  revert acc. induction items as [|[k0 v0] items IH]; intros acc Hnd; simpl.
  - assumption.
  - apply IH. unfold flip; simpl. now apply NoDup_keys_dict_set.
Qed.

Lemma reverse_origin items acc k v :
  dict_get (fold_left flip items acc) v = Some k ->
  In (k, v) items \/ dict_get acc v = Some k.
Proof.
  revert acc. induction items as [|[k0 v0] items IH]; intros acc; simpl.
  - tauto.
  - intros Hget. apply IH in Hget as [Hin|Hacc]; [tauto|].
    unfold flip in Hacc; simpl in Hacc.
    destruct (String.eqb_spec v0 v) as [->|Hne].
    + rewrite dict_get_set_same in Hacc. injection Hacc as ->. tauto.
    + rewrite dict_get_set_other in Hacc by assumption. tauto.
Qed.

Lemma reverse_last items acc pre post k v :
  items = pre ++ (k, v) :: post -> ~ In v (values post) ->
  dict_get (fold_left flip items acc) v = Some k.
Proof.
  intros -> Hpost. rewrite fold_left_app. simpl.
  rewrite BimapFacts.reverse_untouched by assumption.
  unfold flip at 1; simpl. apply dict_get_set_same.
Qed.

Lemma reverse_swapped items acc :
  NoDup (values items) ->
  (forall v, In v (values items) -> ~ In v (keys acc)) ->
  fold_left flip items acc = acc ++ map (fun kv => (snd kv, fst kv)) items.
Proof.
  revert acc. induction items as [|[k0 v0] items IH]; intros acc Hnd Hfresh; simpl.
  - now rewrite app_nil_r.
  - simpl in Hnd. inversion Hnd as [|? ? Hnotin Hnd']; subst.
    unfold flip at 2; simpl.
    rewrite dict_set_fresh by (apply Hfresh; now left).
    rewrite IH; [now rewrite <- app_assoc | assumption |].
    intros v Hv. unfold keys. rewrite map_app, in_app_iff. simpl.
    intros [Hacc|[<-|[]]].
    + apply (Hfresh v); [now right | exact Hacc].
    + exact (Hnotin Hv).
Qed.

(** X1.  The reverse lookup of a table succeeds exactly for the texts
    of the dictionary it was built from, and for any other text raises
    the error class given at construction with the message
    [name: Invalid reverse lookup: [text]]. *)
Theorem getattr_defined (name : string) (fwd : dict Z string)
    (err : string -> exn) (v : string) :
  let b := __init__ name fwd err in
  (In v (values fwd) <-> exists k, __getattr__ b v = Ret k) /\
  (~ In v (values fwd) <->
   __getattr__ b v
   = Raise (err (name ++ ": Invalid reverse lookup: [" ++ v ++ "]")%string)).
Proof.
  intros b. unfold b, __getattr__, __init__; simpl.
  destruct (dict_get (fold_left flip fwd []) v) as [k|] eqn:E.
  - assert (Hin : In v (values fwd)).
    { apply dict_get_Some_key in E. apply In_keys_reverse in E. simpl in E. tauto. }
    split; split; eauto; try tauto; discriminate.
  - assert (Hnot : ~ In v (values fwd)).
    { apply dict_get_None in E. rewrite In_keys_reverse in E. tauto. }
    split; split; try tauto.
    intros [k Hk]. discriminate.
Qed.

(** X2.  The forward lookup of a table succeeds exactly for the codes
    of the dictionary it was built from, and for any other code raises
    the error class given at construction with the message
    [name: Invalid forward lookup: [code]]. *)
Theorem getitem_defined (name : string) (fwd : dict Z string)
    (err : string -> exn) (k : Z) :
  let b := __init__ name fwd err in
  (In k (keys fwd) <-> exists v, __getitem__ b k = Ret v) /\
  (~ In k (keys fwd) <->
   __getitem__ b k
   = Raise (err (name ++ ": Invalid forward lookup: [" ++ str k ++ "]")%string)).
Proof.
  intros b. unfold b, __getitem__, __init__, dict_copy; simpl.
  destruct (dict_get fwd k) as [v|] eqn:E.
  - pose proof (dict_get_Some_key _ _ _ E) as Hin.
    split; split; eauto; try tauto; discriminate.
  - pose proof (proj1 (dict_get_None _ _) E) as Hnot.
    split; split; try tauto.
    intros [v Hv]. discriminate.
Qed.

(** X3.  When several codes of the dictionary carry the same text, the
    reverse lookup of that text gives the code of the last of them. *)
Theorem getattr_last_wins (name : string) (fwd pre post : dict Z string)
    (err : string -> exn) (k : Z) (v : string) :
  fwd = pre ++ (k, v) :: post ->
  ~ In v (values post) ->
  __getattr__ (__init__ name fwd err) v = Ret k.
Proof.
  intros Hsplit Hpost. unfold __getattr__, __init__; simpl.
  now rewrite (reverse_last fwd [] pre post k v Hsplit Hpost).
Qed.

Lemma getattr_last_wins_witness :
  [(1, "A"); (2, "B"); (3, "A")] = [(1, "A"); (2, "B")] ++ (3, "A") :: [] /\
  ~ In "A" (@values Z string []) /\
  __getattr__ (__init__ "T" [(1, "A"); (2, "B"); (3, "A")] KeyError) "A"
  = Ret 3.
Proof.
  split; [reflexivity|]. split; [simpl; tauto|].
  apply (getattr_last_wins "T" [(1, "A"); (2, "B"); (3, "A")]
           [(1, "A"); (2, "B")] [] KeyError 3 "A");
    [reflexivity | simpl; tauto].
Defined.

(** X4.  Whatever code the reverse lookup of a text returns, the
    forward lookup of that code returns the text, also when the texts
    of the dictionary are not distinct. *)
Theorem getitem_of_getattr (name : string) (fwd : dict Z string)
    (err : string -> exn) (k : Z) (v : string) :
  NoDup (keys fwd) ->
  __getattr__ (__init__ name fwd err) v = Ret k ->
  __getitem__ (__init__ name fwd err) k = Ret v.
Proof.
  intros Hk. unfold __getattr__ at 1. unfold __init__ at 1. simpl.
  destruct (dict_get (fold_left flip fwd []) v) as [k'|] eqn:E;
    [|discriminate].
  intros [= ->]. apply reverse_origin in E as [Hin|Hemp]; [|discriminate].
  now apply BimapFacts.getitem_init.
Qed.

Lemma getitem_of_getattr_witness :
  NoDup (keys [(1, "A"); (2, "B"); (3, "A")]) /\
  __getattr__ (__init__ "T" [(1, "A"); (2, "B"); (3, "A")] KeyError) "A"
  = Ret 3 /\
  __getitem__ (__init__ "T" [(1, "A"); (2, "B"); (3, "A")] KeyError) 3
  = Ret "A".
Proof.
  assert (Hnd : NoDup (keys [(1, "A"); (2, "B"); (3, "A")]))
    by (repeat constructor; simpl; intuition discriminate).
  split; [exact Hnd|]. split; [reflexivity|].
  apply (getitem_of_getattr "T" [(1, "A"); (2, "B"); (3, "A")] KeyError 3 "A");
    [exact Hnd | reflexivity].
Defined.

(** X5.  [get] never raises: for a code of the dictionary it returns
    what the forward lookup returns, whatever the default; for any
    other code it returns the default, except that a default which is
    absent or the empty string gives the decimal text of the code. *)
Theorem get_default (name : string) (fwd : dict Z string)
    (err : string -> exn) (k : Z) :
  let b := __init__ name fwd err in
  (forall v default, __getitem__ b k = Ret v -> get b k default = v) /\
  (~ In k (keys fwd) ->
   get b k None = str k /\
   get b k (Some "") = str k /\
   forall s, s <> "" -> get b k (Some s) = s).
Proof.
  intros b. unfold b, get, __getitem__, __init__, dict_copy; simpl. split.
  - intros v default. destruct (dict_get fwd k); [now intros [= ->] | discriminate].
  - intros Hnot. apply dict_get_None in Hnot. rewrite Hnot.
    repeat split. intros s Hs.
    destruct (String.eqb_spec s ""); [contradiction | reflexivity].
Qed.

(** X6.  The reverse table of a table holds each text of the
    dictionary once and nothing else. *)
Theorem reverse_keys (name : string) (fwd : dict Z string)
    (err : string -> exn) :
  let b := __init__ name fwd err in
  NoDup (keys (reverse b)) /\
  (forall v, In v (keys (reverse b)) <-> In v (values fwd)).
Proof.
  intros b. unfold b, __init__; simpl. split.
  - apply NoDup_keys_reverse. constructor.
  - intros v. rewrite In_keys_reverse. simpl. tauto.
Qed.

(** X7.  When the texts of the dictionary are pairwise distinct, the
    reverse table is the dictionary with every item turned round, in
    the same order. *)
Theorem reverse_swaps (name : string) (fwd : dict Z string)
    (err : string -> exn) :
  NoDup (values fwd) ->
  reverse (__init__ name fwd err) = map (fun kv => (snd kv, fst kv)) fwd.
Proof.
  intros Hv. unfold __init__; simpl.
  now rewrite reverse_swapped by (assumption || (simpl; tauto)).
Qed.

Lemma reverse_swaps_witness :
  NoDup (values [(1, "A"); (2, "B"); (3, "C")]) /\
  reverse TEST = [("A", 1); ("B", 2); ("C", 3)].
Proof.
  assert (Hnd : NoDup (values [(1, "A"); (2, "B"); (3, "C")]))
    by (repeat constructor; simpl; intuition discriminate).
  split; [exact Hnd|].
  apply (reverse_swaps "TEST" [(1, "A"); (2, "B"); (3, "C")]
           (UserError "TestError") Hnd).
Defined.

End BimapMore.

(* ================================================================= *)
(** * Further properties of the transport helpers *)

(** X8.  A response that [send_tcp] returns is never short: it has its
    two prefix bytes, these declare a length [L], and at least [L]
    more bytes follow.  It is made of the first bytes upstream
    delivered, in order, and the request went out once, as given. *)
Theorem send_tcp_returns_whole_frames (fuel : nat) (data : bytes)
    (host : string) (port : Z) (w : World) (r : bytes) (w' : World) :
  send_tcp fuel data host port w = Some (Ret r, w') ->
  (exists L, unpack_H (firstn 2 r) = Ret L /\ 2 + L <= len r) /\
  stream (incoming w) = r ++ stream (incoming w') /\
  wire w' = wire w ++ [data].
Proof.
  intros H. pose proof (send_tcp_wire _ _ _ _ _ _ _ H) as [Hw _].
  apply send_tcp_Ret in H as (Hconn & Hs & HL).
  rewrite Hconn in Hw. auto.
Qed.

Lemma send_tcp_returns_whole_frames_witness :
  send_tcp 2 query "8.8.8.8" 53 (world three_writes)
  = Some (Ret ([x02; x58] ++ repeat x00 600),
          mkWorld None None [] [query] 3 []) /\
  (exists L, unpack_H (firstn 2 ([x02; x58] ++ repeat x00 600)) = Ret L /\
             2 + L <= len ([x02; x58] ++ repeat x00 600)) /\
  stream (incoming (world three_writes))
  = ([x02; x58] ++ repeat x00 600)
    ++ stream (incoming (mkWorld None None [] [query] 3 [])) /\
  wire (mkWorld None None [] [query] 3 [])
  = wire (world three_writes) ++ [query].
Proof.
  split; [vm_compute; reflexivity|].
  apply (send_tcp_returns_whole_frames 2 query "8.8.8.8" 53
           (world three_writes)).
  vm_compute. reflexivity.
Defined.

(** A message framed by its length and delivered in pieces, the first
    of which holds the prefix, comes back from [send_tcp] whole. *)
Lemma send_tcp_framed data host port w payload prefix first chunks tail fuel :
  refused w = None ->
  pack_H (len payload) = Ret prefix ->
  incoming w = map Arrive (first :: chunks) ++ tail ->
  Forall nonempty (first :: chunks) ->
  (2 <= List.length first)%nat ->
  List.concat (first :: chunks) = prefix ++ payload ->
  (Z.to_nat (2 + len payload) <= fuel)%nat ->
  exists w',
    send_tcp fuel data host port w = Some (Ret (prefix ++ payload), w') /\
    stream (incoming w') = stream tail /\
    wire w' = wire w ++ [data] /\ log w' = log w.
Proof.
  intros Hconn Hpack Hin Hne Hfirst Hcat Hfuel.
  destruct (pack_H_Ret _ _ Hpack) as [Hrange Hprefix].
  assert (Hunpack : unpack_H prefix = Ret (len payload)).
  { pose proof (unpack_pack_H _ Hrange) as Hrt. now rewrite Hpack in Hrt. }
  assert (H2 : firstn 2 first = prefix).
  { assert (Hf : firstn 2 (List.concat (first :: chunks)) = firstn 2 first).
    { change (List.concat (first :: chunks)) with (first ++ List.concat chunks).
      rewrite firstn_app.
      replace (2 - List.length first)%nat with 0%nat by lia.
      now rewrite app_nil_r. }
    rewrite <- Hf, Hcat, Hprefix. reflexivity. }
  assert (Hlen : len (List.concat (first :: chunks)) = 2 + len payload).
  { rewrite Hcat, len_app, Hprefix. unfold len at 1. simpl. lia. }
  destruct (send_tcp_reassembles data host port w first chunks tail
              (len payload) fuel Hconn Hin Hne)
    as (response & w' & unread & Hrun & _ & _ & Hall & Hin' & Hexact);
    [now rewrite H2 | lia | assumption |].
  specialize (Hexact Hlen). subst response.
  exists w'. rewrite <- Hcat. split; [assumption|].
  pose proof (send_tcp_wire _ _ _ _ _ _ _ Hrun) as [Hw Hl].
  rewrite Hconn in Hw. repeat split; auto.
  rewrite Hin', stream_app, stream_arrivals.
  replace (List.concat unread) with (@nil byte); [reflexivity|].
  rewrite <- (app_nil_r (List.concat (first :: chunks))) in Hall at 2.
  now apply app_inv_head in Hall.
Qed.

(** X9.  Framing round trip.  Upstream frames a payload of at most
    65535 bytes with [struct.pack("!H", len(payload))] and writes it in
    pieces of any size, the first holding the prefix: [send_tcp]
    returns the frame, so that dropping two bytes gives the payload
    back, and it reads nothing of what upstream sends after it. *)
Theorem tcp_framing_round_trip (data : bytes) (host : string) (port : Z)
    (w : World) (payload prefix first : bytes) (chunks : list bytes)
    (tail : list event) (fuel : nat) :
  refused w = None ->
  pack_H (len payload) = Ret prefix ->
  incoming w = map Arrive (first :: chunks) ++ tail ->
  Forall nonempty (first :: chunks) ->
  (2 <= List.length first)%nat ->
  List.concat (first :: chunks) = prefix ++ payload ->
  (Z.to_nat (2 + len payload) <= fuel)%nat ->
  exists response w',
    send_tcp fuel data host port w = Some (Ret response, w') /\
    skipn 2 response = payload /\
    stream (incoming w') = stream tail.
Proof.
  intros Hconn Hpack Hin Hne Hfirst Hcat Hfuel.
  destruct (send_tcp_framed data host port w payload prefix first chunks
              tail fuel Hconn Hpack Hin Hne Hfirst Hcat Hfuel)
    as (w' & Hrun & Hs & _).
  exists (prefix ++ payload), w'. repeat split; auto.
  destruct (pack_H_Ret _ _ Hpack) as [_ ->]. reflexivity.
Qed.

Lemma tcp_framing_round_trip_witness :
  exists response w',
    send_tcp 14 query "8.8.8.8" 53
             (world [Arrive [x00; x0c; x12]; Arrive (skipn 1 answer);
                     Arrive [xff]])
    = Some (Ret response, w') /\
    skipn 2 response = answer /\
    stream (incoming w') = stream [Arrive [xff]].
Proof.
  apply (tcp_framing_round_trip query "8.8.8.8" 53
           (world [Arrive [x00; x0c; x12]; Arrive (skipn 1 answer);
                   Arrive [xff]])
           answer [x00; x0c] [x00; x0c; x12] [skipn 1 answer]
           [Arrive [xff]] 14).
  - reflexivity.
  - reflexivity.
  - reflexivity.
  - repeat constructor; discriminate.
  - simpl. lia.
  - reflexivity.
  - vm_compute. lia.
Defined.

(** X10.  When the first receive already holds the declared length,
    [send_tcp] returns all of what that receive brought, bytes beyond
    the declared length included, after one receive call and without
    entering its loop. *)
Theorem send_tcp_single_read (fuel : nat) (data : bytes) (host : string)
    (port : Z) (w : World) (first : bytes) (rest : list event) (L : Z) :
  refused w = None ->
  incoming w = Arrive first :: rest ->
  len first <= 8192 ->
  unpack_H (firstn 2 first) = Ret L ->
  2 + L <= len first ->
  send_tcp fuel data host port w
  = Some (Ret first, set_incoming rest (count_recv (put_wire data w))).
Proof.
  intros Hconn Hin Hbuf Hunpack Hlen.
  rewrite send_tcp_unfold, Hconn. cbv zeta.
  unfold recv. cbn [incoming count_recv put_wire]. rewrite Hin.
  assert (Hn : (List.length first <= Z.to_nat 8192)%nat)
    by (unfold len in Hbuf; lia).
  rewrite (firstn_all2 _ Hn), (skipn_all2 _ Hn), Hunpack.
  destruct fuel; cbn [send_tcp_loop];
    (replace (len first - 2 <? L) with false
       by (symmetry; apply Z.ltb_ge; lia)); reflexivity.
Qed.

Lemma send_tcp_single_read_witness :
  send_tcp 0 query "8.8.8.8" 53
           (world [Arrive (framed_answer ++ [xff; xff]); Quiet])
  = Some (Ret (framed_answer ++ [xff; xff]),
          set_incoming [Quiet]
            (count_recv
               (put_wire query
                  (world [Arrive (framed_answer ++ [xff; xff]); Quiet])))).
Proof.
  apply (send_tcp_single_read 0 query "8.8.8.8" 53
           (world [Arrive (framed_answer ++ [xff; xff]); Quiet])
           (framed_answer ++ [xff; xff]) [Quiet] 12).
  - reflexivity.
  - reflexivity.
  - vm_compute. discriminate.
  - reflexivity.
  - vm_compute. discriminate.
Defined.

(** A receive that does not return bytes ends the loop with its own
    outcome, once the arrivals before it are read. *)
Lemma send_tcp_loop_interrupted sock L ev tail o fuel :
  (forall w0, incoming w0 = ev :: tail -> fst (recv sock 8192 w0) = o) ->
  (forall bs, o <> Ret bs) ->
  forall response w chunks,
    incoming w = map Arrive chunks ++ ev :: tail ->
    Forall nonempty chunks ->
    len response + len (List.concat chunks) < 2 + L ->
    len (List.concat chunks) < Z.of_nat fuel ->
    option_map fst (send_tcp_loop fuel sock L response w) = Some o.
Proof.
  intros Hev Ho. induction fuel as [|fuel IH];
    intros response w chunks Hin Hne Htot Hfuel;
    pose proof (len_nonneg (List.concat chunks)); [lia|].
  cbn [send_tcp_loop].
  replace (len response - 2 <? L) with true by (symmetry; apply Z.ltb_lt; lia).
  destruct chunks as [|c cs].
  - specialize (Hev w Hin).
    destruct (recv sock 8192 w) as [[bs| e |] w1]; simpl in Hev; subst o;
      [now elim (Ho bs) | reflexivity | reflexivity].
  - destruct (recv_chunk sock 8192 w c cs (ev :: tail) Hin)
      as (got & w1 & chunks' & Hr & Hin' & Hcat & Hne' & Hgot & _).
    rewrite Hr.
    assert (Hg : 0 < len got).
    { inversion Hne; subst. specialize (Hgot ltac:(assumption) ltac:(lia)).
      destruct got; [now elim Hgot | unfold len; simpl; lia]. }
    assert (Hlen : len got + len (List.concat chunks')
                   = len (List.concat (c :: cs)))
      by (rewrite <- Hcat, len_app; reflexivity).
    apply (IH _ _ chunks'); auto; rewrite ?len_app; lia.
Qed.

Lemma send_tcp_interrupted data host port w first chunks ev tail L o fuel :
  refused w = None ->
  incoming w = map Arrive (first :: chunks) ++ ev :: tail ->
  Forall nonempty (first :: chunks) ->
  unpack_H (firstn 2 first) = Ret L ->
  len (List.concat (first :: chunks)) < 2 + L ->
  (Z.to_nat (2 + L) <= fuel)%nat ->
  (forall w0, incoming w0 = ev :: tail ->
     fst (recv (mkSocket SOCK_STREAM (defaulttimeout w)) 8192 w0) = o) ->
  (forall bs, o <> Ret bs) ->
  option_map fst (send_tcp fuel data host port w) = Some o.
Proof.
  intros Hconn Hin Hne Hunpack Htot Hfuel Hev Ho.
  rewrite send_tcp_unfold, Hconn. cbv zeta.
  set (sock := mkSocket SOCK_STREAM (defaulttimeout w)) in *.
  destruct (recv_chunk sock 8192 (put_wire data w) first chunks (ev :: tail) Hin)
    as (got & w1 & chunks' & Hr & Hin1 & Hcat & Hne' & Hnz & Hgot).
  rewrite Hr.
  assert (H2 : firstn 2 got = firstn 2 first).
  { rewrite Hgot, firstn_firstn. f_equal; lia. }
  rewrite H2, Hunpack.
  assert (Hlen : len got + len (List.concat chunks')
                 = len (List.concat (first :: chunks)))
    by (rewrite <- len_app, Hcat; reflexivity).
  assert (Hg : 0 < len got).
  { inversion Hne as [|? ? Hc Hcs]. specialize (Hnz Hc ltac:(lia)).
    clear Hgot H2 Hcat Hlen Hr.
    destruct got; [now elim Hnz | unfold len; simpl; lia]. }
  apply (send_tcp_loop_interrupted sock L ev tail o fuel Hev Ho got w1 chunks');
    auto; lia.
Qed.

(** X11.  A socket error on a receive, before the declared length has
    come in, ends [send_tcp] with that error: the bytes read so far are
    dropped and no further receive is tried. *)
Theorem send_tcp_receive_error (fuel : nat) (data : bytes) (host : string)
    (port : Z) (w : World) (first : bytes) (chunks : list bytes)
    (errno : Z) (tail : list event) (L : Z) :
  refused w = None ->
  incoming w = map Arrive (first :: chunks) ++ Fault errno :: tail ->
  Forall nonempty (first :: chunks) ->
  unpack_H (firstn 2 first) = Ret L ->
  len (List.concat (first :: chunks)) < 2 + L ->
  (Z.to_nat (2 + L) <= fuel)%nat ->
  option_map fst (send_tcp fuel data host port w)
  = Some (Raise (OSError errno)).
Proof.
  intros Hconn Hin Hne Hunpack Htot Hfuel.
  apply (send_tcp_interrupted data host port w first chunks
           (Fault errno) tail L); auto; [|discriminate].
  intros w0 Hw0. unfold recv. simpl. now rewrite Hw0.
Qed.

Lemma send_tcp_receive_error_witness :
  option_map fst
    (send_tcp 602 query "8.8.8.8" 53
       (world [Arrive [x02; x58]; Arrive (repeat x00 300); Fault 104]))
  = Some (Raise (OSError 104)).
Proof.
  apply (send_tcp_receive_error 602 query "8.8.8.8" 53
           (world [Arrive [x02; x58]; Arrive (repeat x00 300); Fault 104])
           [x02; x58] [repeat x00 300] 104 [] 600).
  - reflexivity.
  - reflexivity.
  - repeat constructor; discriminate.
  - reflexivity.
  - vm_compute. reflexivity.
  - lia.
Defined.

(** X12.  When upstream falls silent before the declared length has
    come in, what [send_tcp] does depends on the process-wide default
    socket timeout alone: with none set, its receive never returns;
    with one set, [socket.timeout] is raised. *)
Theorem send_tcp_silent_upstream (fuel : nat) (data : bytes) (host : string)
    (port : Z) (w : World) (first : bytes) (chunks : list bytes)
    (tail : list event) (L : Z) :
  refused w = None ->
  incoming w = map Arrive (first :: chunks) ++ Quiet :: tail ->
  Forall nonempty (first :: chunks) ->
  unpack_H (firstn 2 first) = Ret L ->
  len (List.concat (first :: chunks)) < 2 + L ->
  (Z.to_nat (2 + L) <= fuel)%nat ->
  option_map fst (send_tcp fuel data host port w)
  = Some (match defaulttimeout w with
          | Some _ => Raise socket_timeout
          | None => Hang
          end).
Proof.
  intros Hconn Hin Hne Hunpack Htot Hfuel.
  apply (send_tcp_interrupted data host port w first chunks Quiet tail L);
    auto.
  - intros w0 Hw0. unfold recv, idle. simpl. now rewrite Hw0.
  - intros bs. destruct (defaulttimeout w); discriminate.
Qed.

Lemma send_tcp_silent_upstream_witness :
  option_map fst
    (send_tcp 602 query "8.8.8.8" 53
       (mkWorld (Some 2%Q) None
                [Arrive [x02; x58]; Arrive (repeat x00 300); Quiet] [] 0 []))
  = Some (Raise socket_timeout).
Proof.
  apply (send_tcp_silent_upstream 602 query "8.8.8.8" 53
           (mkWorld (Some 2%Q) None
                    [Arrive [x02; x58]; Arrive (repeat x00 300); Quiet] [] 0 [])
           [x02; x58] [repeat x00 300] [] 600).
  - reflexivity.
  - reflexivity.
  - repeat constructor; discriminate.
  - reflexivity.
  - vm_compute. reflexivity.
  - lia.
Defined.


(** X14.  A datagram that arrives is what [send_udp] returns, cut to
    the 8192 bytes of the receive buffer; what a longer datagram holds
    beyond them is lost, the next receive finding the next datagram. *)
Theorem send_udp_datagram (data : bytes) (host : string) (port : Z)
    (w : World) (dgram : bytes) (rest : list event) :
  incoming w = Arrive dgram :: rest ->
  let result := firstn (Z.to_nat 8192) dgram in
  fst (send_udp data host port w) = Ret result /\
  incoming (snd (send_udp data host port w)) = rest /\
  len result <= 8192 /\
  (len dgram <= 8192 -> result = dgram).
Proof.
  intros Hin result. rewrite send_udp_unfold. unfold recvfrom. simpl.
  rewrite Hin. simpl. repeat split.
  - unfold result, len. rewrite length_firstn. lia.
  - intros Hlen. apply firstn_all2. unfold len in Hlen. lia.
Qed.

Lemma send_udp_datagram_witness :
  fst (send_udp query "8.8.8.8" 53 (world [Arrive answer; Arrive [xff]]))
  = Ret (firstn (Z.to_nat 8192) answer) /\
  incoming (snd (send_udp query "8.8.8.8" 53
                          (world [Arrive answer; Arrive [xff]])))
  = [Arrive [xff]] /\
  len (firstn (Z.to_nat 8192) answer) <= 8192 /\
  (len answer <= 8192 -> firstn (Z.to_nat 8192) answer = answer).
Proof.
  apply (send_udp_datagram query "8.8.8.8" 53
           (world [Arrive answer; Arrive [xff]]) answer [Arrive [xff]]).
  reflexivity.
Defined.

(** X15.  When no datagram arrives, what [send_udp] does depends on
    the process-wide default socket timeout alone: with none set, its
    receive never returns; with one set, [socket.timeout] is raised.
    No argument of [send_udp] bounds the wait. *)
Theorem send_udp_waits (data : bytes) (host : string) (port : Z) (w : World) :
  incoming w = [] \/ (exists rest, incoming w = Quiet :: rest) ->
  fst (send_udp data host port w)
  = match defaulttimeout w with
    | Some _ => Raise socket_timeout
    | None => Hang
    end.
Proof.
  intros Hin. rewrite send_udp_unfold. unfold recvfrom, idle. simpl.
  destruct Hin as [->|[rest ->]]; reflexivity.
Qed.

Lemma send_udp_waits_witness :
  fst (send_udp query "8.8.8.8" 53
                (mkWorld (Some 2%Q) None [Quiet; Arrive answer] [] 0 []))
  = Raise socket_timeout.
Proof.
  apply (send_udp_waits query "8.8.8.8" 53
           (mkWorld (Some 2%Q) None [Quiet; Arrive answer] [] 0 [])).
  right. exists [Arrive answer]. reflexivity.
Defined.

(* ================================================================= *)
(** * Further properties of the passthrough handler *)

Lemma pack_H_fits (n : Z) :
  0 <= n <= 65535 ->
  exists prefix, pack_H n = Ret prefix /\ List.length prefix = 2%nat /\
                 unpack_H prefix = Ret n.
Proof.
  intros Hn. pose proof (unpack_pack_H n Hn) as Hrt. unfold pack_H in *.
  replace ((0 <=? n) && (n <=? 65535)) with true in *
    by (symmetry; apply andb_true_iff; split; apply Z.leb_le; lia).
  eexists. split; [reflexivity|]. split; [reflexivity | exact Hrt].
Qed.

Lemma pack_H_too_long (n : Z) : 65535 < n -> pack_H n = Raise struct_error.
Proof.
  intros Hn. unfold pack_H.
  replace (n <=? 65535) with false by (symmetry; apply Z.leb_gt; lia).
  now rewrite andb_false_r.
Qed.

Section HandlerMore.
Variable C : Codec.

(** X16.  Over TCP a client message longer than 65535 bytes cannot be
    framed: the handler logs the request, fails with [struct.error] on
    building the prefix, and nothing is sent upstream. *)
Theorem passthrough_tcp_oversize (fuel : nat) (self : DNSHandler)
    (data : bytes) (w : World) (req : Message C) :
  String.eqb (protocol self) "tcp" = true ->
  parse C data = Ret req ->
  65535 < len data ->
  get_reply C fuel self data w
  = Some (Raise struct_error,
          put_log ("Request: " ++ to_str C req)%string w).
Proof.
  intros Hproto Hreq Hlen.
  unfold get_reply, bindF, total, lift, log_request.
  now rewrite Hreq, Hproto, (pack_H_too_long _ Hlen).
Qed.

(** X17.  Whatever the outcome, one call of the handler writes to
    upstream at most once: either nothing, or one buffer, which is the
    client's bytes, over TCP behind the two bytes that encode their
    length; and it does so only after parsing and logging the
    request.  Nothing is sent a second time. *)
Theorem passthrough_sends_at_most_once (fuel : nat) (self : DNSHandler)
    (data : bytes) (w : World) (o : outcome bytes) (w' : World) :
  get_reply C fuel self data w = Some (o, w') ->
  wire w' = wire w \/
  exists req sent more,
    parse C data = Ret req /\
    wire w' = wire w ++ [sent] /\
    log w' = log w ++ ("Request: " ++ to_str C req)%string :: more /\
    if String.eqb (protocol self) "tcp"
    then unpack_H (firstn 2 sent) = Ret (len data) /\ skipn 2 sent = data
    else sent = data.
Proof.
  unfold get_reply, bindF, total, lift, log_request, log_reply, retM.
  destruct (parse C data) as [req| |] eqn:Hreq;
    try (intros [= <- <-]; now left).
  destruct (String.eqb (protocol self) "tcp") eqn:Hproto.
  - destruct (pack_H (len data)) as [prefix| |] eqn:Hpack;
      try (intros [= <- <-]; now left).
    destruct (pack_H_Ret _ _ Hpack) as [Hrange Hprefix].
    destruct (pack_H_fits _ Hrange) as (p & Hp & _ & Hunpack).
    rewrite Hpack in Hp. injection Hp as <-.
    destruct (send_tcp fuel _ _ _ _) as [[o1 w1]|] eqn:Htcp;
      [|discriminate].
    apply send_tcp_wire in Htcp as [Hw Hl]. simpl in Hw, Hl.
    assert (Hsent : forall more w2,
               wire w2 = wire w1 -> log w2 = log w1 ++ more ->
               wire w2 = wire w \/
               exists req0 sent more0,
                 Ret req = Ret req0 /\
                 wire w2 = wire w ++ [sent] /\
                 log w2 = log w ++ ("Request: " ++ to_str C req0)%string :: more0 /\
                 unpack_H (firstn 2 sent) = Ret (len data) /\
                 skipn 2 sent = data).
    { intros more w2 Hw2 Hl2. destruct (refused w).
      - left. rewrite Hw2, Hw. now rewrite app_nil_r.
      - right. exists req, (prefix ++ data), more.
        rewrite Hw2, Hw, Hl2, Hl, <- app_assoc.
        assert (H2 : firstn 2 (prefix ++ data) = prefix)
          by (rewrite Hprefix; reflexivity).
        assert (Hs : skipn 2 (prefix ++ data) = data)
          by (rewrite Hprefix; reflexivity).
        rewrite H2, Hs. repeat split; auto. }
    destruct o1 as [response| e |].
    + destruct (parse C (skipn 2 response)) as [rep| e |];
        intros [= <- <-].
      * apply (Hsent [("Reply: " ++ to_str C rep)%string]); reflexivity.
      * apply (Hsent []); [reflexivity | now rewrite app_nil_r].
      * apply (Hsent []); [reflexivity | now rewrite app_nil_r].
    + intros [= <- <-]. apply (Hsent []); [reflexivity | now rewrite app_nil_r].
    + intros [= <- <-]. apply (Hsent []); [reflexivity | now rewrite app_nil_r].
  - destruct (send_udp data _ _ _) as [o1 w1] eqn:Hudp.
    apply send_udp_effects in Hudp as (Hw & _ & Hl). simpl in Hw, Hl.
    assert (Hsent : forall more w2,
               wire w2 = wire w1 -> log w2 = log w1 ++ more ->
               wire w2 = wire w \/
               exists req0 sent more0,
                 Ret req = Ret req0 /\
                 wire w2 = wire w ++ [sent] /\
                 log w2 = log w ++ ("Request: " ++ to_str C req0)%string :: more0 /\
                 sent = data).
    { intros more w2 Hw2 Hl2. right. exists req, data, more.
      rewrite Hw2, Hw, Hl2, Hl, <- app_assoc. repeat split; auto. }
    destruct o1 as [response| e |].
    + destruct (parse C response) as [rep| e |]; intros [= <- <-].
      * apply (Hsent [("Reply: " ++ to_str C rep)%string]); reflexivity.
      * apply (Hsent []); [reflexivity | now rewrite app_nil_r].
      * apply (Hsent []); [reflexivity | now rewrite app_nil_r].
    + intros [= <- <-]. apply (Hsent []); [reflexivity | now rewrite app_nil_r].
    + intros [= <- <-]. apply (Hsent []); [reflexivity | now rewrite app_nil_r].
Qed.
End HandlerMore.

Lemma len_padding : len padding = 65524.
Proof. unfold len, padding. rewrite repeat_length. lia. Qed.

Lemma passthrough_tcp_oversize_witness :
  get_reply Wire 0 tcp_handler big_query (world [])
  = Some (Raise struct_error,
          put_log ("Request: " ++ to_str Wire big_request)%string (world [])).
Proof.
  apply (passthrough_tcp_oversize Wire 0 tcp_handler big_query (world [])
           big_request).
  - reflexivity.
  - unfold big_query, big_request, query.
    cbn [app skipn parse Wire wire_parse].
    replace (len ([x00; x01; x00; x00; x00; x00; x00; x00] ++ padding) <? 8)
      with false; [reflexivity|].
    symmetry. apply Z.ltb_ge. rewrite len_app, len_padding.
    pose proof (len_nonneg [x00; x01; x00; x00; x00; x00; x00; x00]). lia.
  - unfold big_query. rewrite len_app, len_padding.
    change (len query) with 12. lia.
Defined.

Lemma passthrough_sends_at_most_once_witness :
  wire (relayed query) = wire (world [Arrive answer]) \/
  exists req sent more,
    parse Wire query = Ret req /\
    wire (relayed query) = wire (world [Arrive answer]) ++ [sent] /\
    log (relayed query)
    = log (world [Arrive answer])
      ++ ("Request: " ++ to_str Wire req)%string :: more /\
    sent = query.
Proof.
  apply (passthrough_sends_at_most_once Wire 0 udp_handler query
           (world [Arrive answer]) (Ret answer) (relayed query)).
  reflexivity.
Defined.

Section HandlerRuns.
Variable C : Codec.

(** X18.  Over UDP, when the client's bytes parse and upstream's
    datagram, cut to the receive buffer, parses, the handler returns
    that datagram, having logged the request, sent the client's bytes
    as they came, made one receive call and logged the reply, in this
    order. *)
Theorem passthrough_udp_run (fuel : nat) (self : DNSHandler) (data : bytes)
    (w : World) (req rep : Message C) (dgram : bytes) (rest : list event) :
  String.eqb (protocol self) "tcp" = false ->
  parse C data = Ret req ->
  incoming w = Arrive dgram :: rest ->
  parse C (firstn (Z.to_nat 8192) dgram) = Ret rep ->
  get_reply C fuel self data w
  = Some (Ret (firstn (Z.to_nat 8192) dgram),
          put_log ("Reply: " ++ to_str C rep)%string
            (set_incoming rest
               (count_recv
                  (put_wire data
                     (put_log ("Request: " ++ to_str C req)%string w))))).
Proof.
  intros Hproto Hreq Hin Hrep.
  unfold get_reply, bindF, total, lift, log_request, log_reply, retM.
  rewrite Hreq, Hproto, send_udp_unfold. unfold recvfrom.
  cbn [incoming count_recv put_wire put_log]. rewrite Hin, Hrep. reflexivity.
Qed.

(** X19.  Over TCP, when the client's bytes parse and fit a length
    prefix, and upstream answers with a framed payload that parses,
    written in pieces the first of which holds the prefix, the handler
    returns the payload without its prefix.  Upstream was sent the
    client's bytes behind the prefix of their own length, request and
    reply were logged, and nothing upstream sent after the frame was
    read. *)
Theorem passthrough_tcp_run (fuel : nat) (self : DNSHandler) (data : bytes)
    (w : World) (req rep : Message C) (payload prefix first : bytes)
    (chunks : list bytes) (tail : list event) :
  String.eqb (protocol self) "tcp" = true ->
  parse C data = Ret req ->
  len data <= 65535 ->
  refused w = None ->
  pack_H (len payload) = Ret prefix ->
  incoming w = map Arrive (first :: chunks) ++ tail ->
  Forall nonempty (first :: chunks) ->
  (2 <= List.length first)%nat ->
  List.concat (first :: chunks) = prefix ++ payload ->
  parse C payload = Ret rep ->
  (Z.to_nat (2 + len payload) <= fuel)%nat ->
  exists sent w',
    get_reply C fuel self data w = Some (Ret payload, w') /\
    wire w' = wire w ++ [sent] /\
    unpack_H (firstn 2 sent) = Ret (len data) /\ skipn 2 sent = data /\
    log w' = log w ++ [("Request: " ++ to_str C req)%string;
                       ("Reply: " ++ to_str C rep)%string] /\
    stream (incoming w') = stream tail.
Proof.
  intros Hproto Hreq Hfit Hconn Hpack Hin Hne Hfirst Hcat Hrep Hfuel.
  destruct (pack_H_fits (len data)) as (p & Hp & Hp2 & Hunpack);
    [pose proof (len_nonneg data); lia|].
  set (w0 := put_log ("Request: " ++ to_str C req)%string w).
  destruct (send_tcp_framed (p ++ data)
              (address (resolver (server self)))
              (port (resolver (server self)))
              w0 payload prefix first chunks tail fuel)
    as (w1 & Hrun & Hs & Hw & Hl); auto.
  assert (Hskip : skipn 2 (prefix ++ payload) = payload).
  { destruct (pack_H_Ret _ _ Hpack) as [_ ->]. reflexivity. }
  exists (p ++ data), (put_log ("Reply: " ++ to_str C rep)%string w1).
  split.
  - unfold get_reply, bindF, total, lift, log_request, log_reply, retM.
    rewrite Hreq, Hproto, Hp. fold w0. rewrite Hrun, Hskip, Hrep. reflexivity.
  - destruct p as [|a [|b [|? ?]]]; try discriminate.
    simpl. rewrite Hw, Hl. simpl. rewrite <- app_assoc.
    repeat split; auto.
Qed.
End HandlerRuns.

Lemma passthrough_udp_run_witness :
  get_reply Wire 0 udp_handler query (world [Arrive answer; Arrive [xff]])
  = Some (Ret (firstn (Z.to_nat 8192) answer),
          put_log ("Reply: " ++ to_str Wire answer_message)%string
            (set_incoming [Arrive [xff]]
               (count_recv
                  (put_wire query
                     (put_log ("Request: " ++ to_str Wire request)%string
                        (world [Arrive answer; Arrive [xff]])))))).
Proof.
  apply (passthrough_udp_run Wire 0 udp_handler query
           (world [Arrive answer; Arrive [xff]])
           request answer_message answer [Arrive [xff]]);
    reflexivity.
Defined.

Lemma passthrough_tcp_run_witness :
  exists sent w',
    get_reply Wire 14 tcp_handler query
              (world [Arrive [x00; x0c; x12]; Arrive (skipn 1 answer);
                      Arrive [xff]])
    = Some (Ret answer, w') /\
    wire w'
    = wire (world [Arrive [x00; x0c; x12]; Arrive (skipn 1 answer);
                   Arrive [xff]]) ++ [sent] /\
    unpack_H (firstn 2 sent) = Ret (len query) /\ skipn 2 sent = query /\
    log w'
    = log (world [Arrive [x00; x0c; x12]; Arrive (skipn 1 answer);
                  Arrive [xff]])
      ++ [("Request: " ++ to_str Wire request)%string;
          ("Reply: " ++ to_str Wire answer_message)%string] /\
    stream (incoming w') = stream [Arrive [xff]].
Proof.
  apply (passthrough_tcp_run Wire 14 tcp_handler query
           (world [Arrive [x00; x0c; x12]; Arrive (skipn 1 answer);
                   Arrive [xff]])
           request answer_message answer [x00; x0c] [x00; x0c; x12]
           [skipn 1 answer] [Arrive [xff]]).
  - reflexivity.
  - reflexivity.
  - vm_compute. discriminate.
  - reflexivity.
  - reflexivity.
  - reflexivity.
  - repeat constructor; discriminate.
  - simpl. lia.
  - reflexivity.
  - reflexivity.
  - vm_compute. lia.
Defined.

(* ================================================================= *)
(** * Further properties of the resolver *)

Section ResolverMore.
Variable C : Codec.
Variable send : Message C -> string -> Z -> bool -> Q -> outcome bytes.
Hypothesis laws : CodecLaws C.

(** X20.  With a response-code table built from a dictionary of
    distinct texts in which code [nx] is named NXDOMAIN, a timeout of
    the round trip makes [resolve] return a reply that has the
    request's transaction id and response code [nx]. *)
Theorem resolve_timeout_reply (self : ProxyResolver) (request : Message C)
    (handler : DNSHandler) (name : string) (fwd : dict Z string)
    (err : string -> exn) (nx : Z) :
  NoDup (values fwd) ->
  In (nx, "NXDOMAIN"%string) fwd ->
  0 <= nx < 16 ->
  round_trip C send self request handler = Raise socket_timeout ->
  exists r,
    resolve C send (Bimap.__init__ name fwd err) self request handler = Ret r /\
    id C r = id C request /\ rcode C r = nx.
Proof.
  intros Hv Hin Hrange Hup.
  pose proof (BimapFacts.getattr_init name fwd err nx "NXDOMAIN" Hv Hin) as Hnx.
  destruct (synthesized_reply C (Bimap.__init__ name fwd err) laws request nx
              Hnx Hrange) as (r & Hr & Hid & Hrc).
  exists r. unfold resolve. rewrite Hup. cbn [bind try_except is_socket_timeout].
  auto.
Qed.
End ResolverMore.

Lemma resolve_timeout_reply_witness :
  exists r,
    resolve Wire (send_canned (Raise socket_timeout)) RCODE
            upstream request udp_handler = Ret r /\
    id Wire r = id Wire request /\ rcode Wire r = 3.
Proof.
  apply (resolve_timeout_reply Wire (send_canned (Raise socket_timeout))
           Wire_laws upstream request udp_handler "RCODE"
           [(0, "NOERROR"); (1, "FORMERR"); (2, "SERVFAIL"); (3, "NXDOMAIN");
            (4, "NOTIMP"); (5, "REFUSED")]%string DNSError 3).
  - repeat constructor; simpl; intuition discriminate.
  - simpl. tauto.
  - lia.
  - reflexivity.
Defined.

(* ================================================================= *)
(** * Properties of the upstream option *)

Lemma partition_absent (s : string) (sep : ascii) :
  ~ In sep (list_ascii_of_string s) ->
  partition s sep = (s, ""%string, ""%string).
Proof.
  induction s as [|c s IH]; simpl; [reflexivity|].
  intros Hnot. destruct (Ascii.eqb_spec c sep) as [->|Hne]; [tauto|].
  rewrite IH by tauto. reflexivity.
Qed.

Lemma partition_first (head tail : string) (sep : ascii) :
  ~ In sep (list_ascii_of_string head) ->
  partition (head ++ String sep tail)%string sep
  = (head, String sep ""%string, tail).
Proof.
  induction head as [|c head IH]; simpl.
  - intros _. now rewrite Ascii.eqb_refl.
  - intros Hnot. destruct (Ascii.eqb_spec c sep) as [->|Hne]; [tauto|].
    rewrite IH by tauto. reflexivity.
Qed.

Lemma partition_head (s : string) (sep : ascii) :
  ~ In sep (list_ascii_of_string (fst (fst (partition s sep)))) /\
  exists rest, s = (fst (fst (partition s sep)) ++ rest)%string.
Proof.
  induction s as [|c s [IHfree [rest IHrest]]]; simpl.
  - split; [tauto | now exists ""%string].
  - destruct (Ascii.eqb_spec c sep) as [->|Hne]; simpl.
    + split; [tauto | now exists (String sep s)].
    + destruct (partition s sep) as [[h m] t]; simpl in *. split.
      * intros [Heq|Hin]; [congruence | tauto].
      * exists rest. now rewrite <- IHrest.
Qed.

(** X21.  An upstream option without a colon names the server and
    leaves the port at 53; no conversion of a port text takes
    place. *)
Theorem upstream_target_default_port (int : string -> outcome Z)
    (upstream : string) :
  colon_free upstream ->
  upstream_target int upstream = Ret (upstream, 53).
Proof.
  intros Hfree. unfold upstream_target.
  now rewrite (partition_absent upstream ":" Hfree).
Qed.

Lemma upstream_target_default_port_witness :
  colon_free "8.8.8.8" /\
  upstream_target int_decimal "8.8.8.8" = Ret ("8.8.8.8"%string, 53).
Proof.
  assert (Hfree : colon_free "8.8.8.8")
    by (unfold colon_free; simpl; intuition discriminate).
  split; [exact Hfree|].
  apply (upstream_target_default_port int_decimal "8.8.8.8" Hfree).
Defined.

(** X22.  An upstream option is split at its first colon: what stands
    before it is the server; what stands after it, further colons
    included, is the text of the port, converted by [int], and an
    empty text after the colon leaves the port at 53. *)
Theorem upstream_target_split (int : string -> outcome Z)
    (host port_text : string) :
  colon_free host ->
  upstream_target int (host ++ ":" ++ port_text)%string
  = if String.eqb port_text ""
    then Ret (host, 53)
    else bind (int port_text) (fun p => Ret (host, p)).
Proof.
  intros Hfree. unfold upstream_target.
  change (host ++ ":" ++ port_text)%string
    with (host ++ String ":" port_text)%string.
  rewrite (partition_first host port_text ":" Hfree).
  now destruct (String.eqb port_text "").
Qed.

Lemma upstream_target_split_witness :
  colon_free "8.8.8.8" /\
  upstream_target int_decimal ("8.8.8.8" ++ ":" ++ "5353")%string
  = Ret ("8.8.8.8"%string, 5353).
Proof.
  assert (Hfree : colon_free "8.8.8.8")
    by (unfold colon_free; simpl; intuition discriminate).
  split; [exact Hfree|].
  apply (upstream_target_split int_decimal "8.8.8.8" "5353" Hfree).
Defined.

(** X23.  The server name obtained from an upstream option never
    contains a colon and is an initial part of the option: an address
    written with colons cannot be given as the server. *)
Theorem upstream_target_host (int : string -> outcome Z)
    (upstream dns : string) (dns_port : Z) :
  upstream_target int upstream = Ret (dns, dns_port) ->
  colon_free dns /\ exists rest, upstream = (dns ++ rest)%string.
Proof.
  unfold upstream_target, colon_free.
  pose proof (partition_head upstream ":") as Hhead.
  destruct (partition upstream ":") as [[h m] t]; simpl in Hhead.
  destruct (if String.eqb t "" then Ret 53 else int t) as [p| |];
    simpl; try discriminate.
  now intros [= <- <-].
Qed.

Lemma upstream_target_host_witness :
  upstream_target int_decimal "8.8.8.8:5353"
  = Ret ("8.8.8.8"%string, 5353) /\
  colon_free "8.8.8.8" /\
  exists rest, "8.8.8.8:5353"%string = ("8.8.8.8" ++ rest)%string.
Proof.
  assert (Hrun : upstream_target int_decimal "8.8.8.8:5353"
                 = Ret ("8.8.8.8"%string, 5353))
    by reflexivity.
  split; [exact Hrun|].
  apply (upstream_target_host int_decimal "8.8.8.8:5353" "8.8.8.8" 5353 Hrun).
Defined.
